(** * Paddle-YOLOv4 deployment inference: a shallow embedding of [deploy_infer.py]

    The development follows the source file top to bottom: the transform
    operators ([Resize], [Normalize], [Permute], [PadStride]), input assembly
    ([create_inputs]), configuration ([Config], [load_predictor]) and the
    [Detector] with its [preprocess], [postprocess] and [predict] methods.

    Conventions of the embedding.
    - Python exceptions are the constructors of [exn]; a call that may raise
      returns a [result].
    - A Python float is the rational number it holds ([Q]); [float],
      [np_round], [py_int] and [np_ceil] are the corresponding conversions,
      and [binary64] and [binary32] round a rational to the nearest number
      of the format, ties to even.  The rounding of an operation is written
      out where its last bit decides a branch or a truncation: the cap test
      of [generate_scale] and the scale it yields, the sizes of the PIL path
      of [Resize] and the comparison of the scores with the threshold in
      [postprocess].  The quotients of the direct resize policy, the output
      size of the OpenCV resampler and the padded sides of [PadStride] are
      computed on exact quotients and products.  Exponents are unbounded
      above: no quantity below comes near the largest finite number.
    - An image buffer is represented by its three-axis shape.  Pixel values are
      produced by OpenCV, PIL and numpy and never influence control flow,
      shapes or metadata.
    - Python dictionaries with string keys are [gmap string _]; the fixed-key
      [im_info] dictionary is a record whose shape entries start as [None]. *)

From Stdlib Require Import QArith Qround Qabs Qpower ZArith Lia Lqa.
From stdpp Require Import gmap strings list.

Local Open Scope Z_scope.

(** ** Python runtime: exceptions and fallible computations *)

(** The last constructor is not a Python class: it stands for whichever
    exception follows once [im_info] has been bound to an array instead of
    the metadata dictionary (see [unpack_pair]). *)
Inductive exn : Type :=
  | TypeError
  | ValueError
  | IndexError
  | ZeroDivisionError
  | UnboundLocalError (var : string)
  | cv2_error
  | ArrayAsInfo.

Inductive result (A : Type) : Type :=
  | Ok (a : A)
  | Raise (e : exn).
Arguments Ok {A} a.
Arguments Raise {A} e.

#[global] Instance result_ret : MRet result := fun A a => Ok a.
#[global] Instance result_bind : MBind result := fun A B f m =>
  match m with
  | Ok a => f a
  | Raise e => Raise e
  end.

(** ** Numbers *)

(** [float(n)] for a Python or numpy integer. *)
Definition float (n : Z) : Q := inject_Z n.

(** Strict comparison of floats, as a boolean. *)
Definition Qltb (a b : Q) : bool := negb (Qle_bool b a).

(** [a / b] on Python floats: raises on a zero divisor; the quotient before
    its rounding to binary64. *)
Definition py_truediv (a b : Q) : result Q :=
  if Qeq_bool b 0 then Raise ZeroDivisionError else Ok (a / b)%Q.

(** [np.round]: to the nearest integer, ties to the even one.  OpenCV's
    [cvRound] (used for the output size of [cv2.resize]) rounds the same way. *)
Definition np_round (q : Q) : Z :=
  let f := Qfloor q in
  match (q - inject_Z f ?= 1 # 2)%Q with
  | Lt => f
  | Gt => f + 1
  | Eq => if Z.even f then f else f + 1
  end.

Definition cvRound (q : Q) : Z := np_round q.

(** [int(x)] on a float: truncation toward zero. *)
Definition py_int (q : Q) : Z :=
  if Qle_bool 0 q then Qfloor q else Qceiling q.

Definition np_ceil (q : Q) : Z := Qceiling q.

(** *** Binary floating point *)

(** [2^e] as a rational. *)
Definition pow2 (e : Z) : Q := (2 ^ e)%Q.

(** The binary exponent of a non-zero rational: the integer [l] with
    [2^l <= |q| < 2^(l+1)]. *)
Definition ilog2 (q : Q) : Z :=
  let l := Z.log2 (Z.abs (Qnum q)) - Z.log2 (Zpos (Qden q)) in
  if Qle_bool (pow2 l) (Qabs q) then l else l - 1.

(** Rounding to the nearest number of a binary floating-point format with
    [prec] significant bits, ties to the even significand; [emin] is the
    exponent of the last place of the subnormal numbers.  A number of the
    format is returned as it is, any other result in lowest terms. *)
Definition round_binary (prec emin : Z) (q : Q) : Q :=
  if Qeq_bool q 0 then q
  else
    let e := Z.max emin (ilog2 q - (prec - 1)) in
    let r := (inject_Z (np_round (q / pow2 e)) * pow2 e)%Q in
    if Qeq_bool r q then q else Qred r.

(** What a binary64 operation (a Python float, [np.float64]) and a binary32
    one ([np.float32]) make of their exact result. *)
Definition binary64 : Q → Q := round_binary 53 (-1074).
Definition binary32 : Q → Q := round_binary 24 (-149).

(** [needle in hay] on Python strings: substring search. *)
Fixpoint py_in (needle hay : string) : bool :=
  String.prefix needle hay ||
  match hay with
  | EmptyString => false
  | String _ rest => py_in needle rest
  end.

(** ** Image buffers and provenance metadata *)

(** The shape of a three-axis array: HWC before [Permute], CHW after. *)
Record image : Type := Image { dim0 : nat; dim1 : nat; dim2 : nat }.

(** [im.shape[:2]] *)
Definition shape_2 (im : image) : nat * nat := (dim0 im, dim1 im).

(** The [im_info] dictionary built by [Detector.preprocess]. *)
Record im_info : Type := ImInfo {
  scale : Q;
  origin_shape : option (nat * nat);
  resize_shape : option (nat * nat)
}.

Definition set_scale (s : Q) (info : im_info) : im_info :=
  {| scale := s; origin_shape := origin_shape info;
     resize_shape := resize_shape info |}.

Definition set_origin_shape (s : nat * nat) (info : im_info) : im_info :=
  {| scale := scale info; origin_shape := Some s;
     resize_shape := resize_shape info |}.

Definition set_resize_shape (s : nat * nat) (info : im_info) : im_info :=
  {| scale := scale info; origin_shape := origin_shape info;
     resize_shape := Some s |}.

(** [decode_image] on an already decoded buffer (the [else] branch; the file
    branch differs only in reading and decoding the file first). *)
Definition decode_image (im_file : image) (info : im_info)
  : image * im_info :=
  (im_file,
   set_resize_shape (shape_2 im_file) (set_origin_shape (shape_2 im_file) info)).

(** Shape compatibility of [dst[...] = src] for arrays of equal rank: each
    source axis has the destination's length or length one. *)
Fixpoint broadcastable (src dst : list nat) : bool :=
  match src, dst with
  | [], [] => true
  | s :: src', d :: dst' =>
      ((s =? d)%nat || (s =? 1)%nat) && broadcastable src' dst'
  | _, _ => false
  end.

(** ** Resize *)

(** The value [__init__] stores in [self.image_shape]: the statement ends in
    a comma, so the attribute is a one-element tuple around the argument. *)
Inductive image_shape_attr : Type :=
  | Tuple1 (arg : option (list Z)).

(** [x is not None] on that attribute. *)
Definition is_not_None (a : image_shape_attr) : bool :=
  match a with
  | Tuple1 _ => true
  end.

Record Resize : Type := {
  target_size : Z;
  max_size : Z;
  image_shape : image_shape_attr;
  arch : string;
  use_cv2 : bool;
  interp : Z
}.

(** [self.scale_set] *)
Definition scale_set : gset string := {[ "RCNN"; "RetinaNet" ]}.

Definition in_scale_set (a : string) : bool := bool_decide (a ∈ scale_set).

Definition Resize_init (arch : string) (target_size max_size : Z)
    (use_cv2 : bool) (image_shape : option (list Z)) (interp : Z) : Resize :=
  {| target_size := target_size; max_size := max_size;
     image_shape := Tuple1 image_shape; arch := arch;
     use_cv2 := use_cv2; interp := interp |}.

(** [Resize.generate_scale]: returns [(im_scale_x, im_scale_y)].  Under the
    aspect-preserving policy the cap is decided on [np.round] of a binary64
    product of a binary64 quotient, where the last bit can tip a product
    that is close to a half: the roundings are written out.  The quotients
    of the direct policy are carried exactly: they are only used for the
    output size of the resampler, which rounds [w * (target / w)] to the
    nearest integer. *)
Definition generate_scale (self : Resize) (im : image) : result (Q * Q) :=
  let origin_shape := shape_2 im in
  if negb (max_size self =? 0) && in_scale_set (arch self) then
    let im_size_min := Z.of_nat (Nat.min (fst origin_shape) (snd origin_shape)) in
    let im_size_max := Z.of_nat (Nat.max (fst origin_shape) (snd origin_shape)) in
    quotient ← py_truediv (float (target_size self)) (float im_size_min);
    let im_scale := binary64 quotient in
    im_scale ←
      (if max_size self <? np_round (binary64 (im_scale * float im_size_max))
       then quotient ← py_truediv (float (max_size self)) (float im_size_max);
            Ok (binary64 quotient)
       else Ok im_scale);
    Ok (im_scale, im_scale)
  else
    im_scale_x ← py_truediv (float (target_size self))
                            (float (Z.of_nat (snd origin_shape)));
    im_scale_y ← py_truediv (float (target_size self))
                            (float (Z.of_nat (fst origin_shape)));
    Ok (im_scale_x, im_scale_y).

(** [cv2.resize(im, None, None, fx, fy)]: OpenCV requires positive factors
    and a non-empty result of size [(cvRound(fx*cols), cvRound(fy*rows))];
    the channel axis is kept. *)
Definition cv2_resize (im : image) (fx fy : Q) : result image :=
  if Qltb 0 fx && Qltb 0 fy then
    let cols := cvRound (float (Z.of_nat (dim1 im)) * fx) in
    let rows := cvRound (float (Z.of_nat (dim0 im)) * fy) in
    if (0 <? cols) && (0 <? rows)
    then Ok (Image (Z.to_nat rows) (Z.to_nat cols) (dim2 im))
    else Raise cv2_error
  else Raise cv2_error.

(** [Image.fromarray(im).resize((w, h))] converted back to an array; PIL
    rejects sizes that are not positive. *)
Definition pil_resize (im : image) (w h : Z) : result image :=
  if (0 <? w) && (0 <? h)
  then Ok (Image (Z.to_nat h) (Z.to_nat w) (dim2 im))
  else Raise ValueError.

(** The canvas step of [Resize.__call__]:
    [padding_im = np.zeros((max_size, max_size, im_channel));
     padding_im[:im_h, :im_w, :] = im]. *)
Definition pad_to_canvas (max_size : Z) (im_channel : nat) (im : image)
  : result image :=
  if max_size <? 0 then Raise ValueError
  else
    let side := Z.to_nat max_size in
    let im_h := dim0 im in
    let im_w := dim1 im in
    if broadcastable [im_h; im_w; dim2 im]
                     [Nat.min im_h side; Nat.min im_w side; im_channel]
    then Ok (Image side side im_channel)
    else Raise ValueError.

(** [Resize.__call__].  On the PIL path the sizes are [int] of a binary64
    product, which truncates: a product that the rounding leaves just below
    an integer loses one pixel, so the two roundings are written out. *)
Definition Resize_call (self : Resize) (im : image) (info : im_info)
  : result (image * im_info) :=
  let im_channel := dim2 im in
  '(im_scale_x, im_scale_y) ← generate_scale self im;
  im ←
    (if use_cv2 self then cv2_resize im im_scale_x im_scale_y
     else
       let resize_w :=
         py_int (binary64 (binary64 im_scale_x * float (Z.of_nat (dim1 im)))) in
       let resize_h :=
         py_int (binary64 (binary64 im_scale_y * float (Z.of_nat (dim0 im)))) in
       if negb (max_size self =? 0) then Raise TypeError
       else pil_resize im resize_w resize_h);
  im ←
    (if negb (max_size self =? 0) && is_not_None (image_shape self)
     then pad_to_canvas (max_size self) im_channel im
     else Ok im);
  let info := if in_scale_set (arch self) then set_scale im_scale_x info
              else info in
  let info := set_resize_shape (shape_2 im) info in
  Ok (im, info).

(** ** Normalize *)

Record Normalize : Type := {
  mean : list Q;
  std : list Q;
  is_scale : bool;
  is_channel_first : bool
}.

Definition image_dims (im : image) : list nat := [dim0 im; dim1 im; dim2 im].

(** [Normalize.__call__]: the in-place [im -= mean] and [im /= std] need the
    statistics, reshaped along the channel axis, to broadcast into [im]. *)
Definition Normalize_call (self : Normalize) (im : image) (info : im_info)
  : result (image * im_info) :=
  let reshaped (n : nat) : list nat :=
    if is_channel_first self then [n; 1; 1]%nat else [1; 1; n]%nat in
  if broadcastable (reshaped (length (mean self))) (image_dims im) then
    if broadcastable (reshaped (length (std self))) (image_dims im)
    then Ok (im, info)
    else Raise ValueError
  else Raise ValueError.

(** ** Permute *)

Record Permute : Type := {
  to_bgr : bool;
  channel_first : bool
}.

(** [Permute.__call__]: [transpose((2, 0, 1))], then [im[[2, 1, 0], :, :]]. *)
Definition Permute_call (self : Permute) (im : image) (info : im_info)
  : result (image * im_info) :=
  let im := if channel_first self
            then Image (dim2 im) (dim0 im) (dim1 im) else im in
  if to_bgr self then
    if (3 <=? dim0 im)%nat then Ok (Image 3 (dim1 im) (dim2 im), info)
    else Raise IndexError
  else Ok (im, info).

(** ** PadStride *)

Record PadStride : Type := {
  coarsest_stride : Z
}.

(** What a transform operator hands back to its caller: the documented
    [(im, im_info)] tuple, or a bare array. *)
Inductive op_return : Type :=
  | RetPair (im : image) (info : im_info)
  | RetImage (im : image).

(** [int(np.ceil(float(n) / stride) * stride)] *)
Definition pad_len (n : nat) (stride : Z) : Z :=
  py_int (float (np_ceil (float (Z.of_nat n) / float stride)) * float stride).

(** [PadStride.__call__] on a CHW buffer. *)
Definition PadStride_call (self : PadStride) (im : image) (info : im_info)
  : result op_return :=
  let coarsest_stride := coarsest_stride self in
  if coarsest_stride =? 0 then Ok (RetImage im)
  else
    let im_c := dim0 im in
    let im_h := dim1 im in
    let im_w := dim2 im in
    let pad_h := pad_len im_h coarsest_stride in
    let pad_w := pad_len im_w coarsest_stride in
    if (pad_h <? 0) || (pad_w <? 0) then Raise ValueError
    else
      let padding_im := Image im_c (Z.to_nat pad_h) (Z.to_nat pad_w) in
      if broadcastable [im_c; im_h; im_w]
           [im_c; Nat.min im_h (dim1 padding_im); Nat.min im_w (dim2 padding_im)]
      then Ok (RetPair padding_im
                 (set_resize_shape (dim1 padding_im, dim2 padding_im) info))
      else Raise ValueError.

(** ** Tensors fed to and fetched from the inference engine *)

Inductive dtype : Type := float32 | float64 | int32 | int64.

#[global] Instance dtype_eq_dec : EqDecision dtype.
Proof. solve_decision. Defined.

(** A rank-1 array. *)
Record vector : Type := Vector { vdtype : dtype; vdata : list Q }.

(** A rank-2 array, row by row. *)
Record matrix : Type := Matrix { mdtype : dtype; mrows : list (list Q) }.

(** The arrays the detection heads emit for one image. *)
Inductive ndarray : Type :=
  | Vec (v : vector)
  | Mat (m : matrix).

(** [len(o.shape)] *)
Definition ndim (o : ndarray) : nat :=
  match o with
  | Vec _ => 1
  | Mat _ => 2
  end.

Definition dtype_of (o : ndarray) : dtype :=
  match o with
  | Vec v => vdtype v
  | Mat m => mdtype m
  end.

(** [len(a)]: the length of the first axis. *)
Definition len (o : ndarray) : nat :=
  match o with
  | Vec v => length (vdata v)
  | Mat m => length (mrows m)
  end.

(** A value of the [inputs] dictionary: the image batch
    [np.array((im, )).astype('float32')] or a small rank-2 array. *)
Inductive feed : Type :=
  | FeedImage (im : image)
  | FeedArray (m : matrix).

Definition of_nat (n : nat) : Q := float (Z.of_nat n).

(** [list(x)] where [x] is a shape pair or still [None]. *)
Definition py_list (x : option (nat * nat)) : result (list nat) :=
  match x with
  | Some (a, b) => Ok [a; b]
  | None => Raise TypeError
  end.

(** [a[:, [1, 0]]] on the one-row array [[a0, a1]]. *)
Definition swap_columns (row : list nat) : list nat :=
  match row with
  | [a; b] => [b; a]
  | _ => row
  end.

(** ** create_inputs *)

Definition create_inputs (im : image) (info : im_info) (model_arch : string)
  : result (gmap string feed) :=
  let inputs : gmap string feed := <["image" := FeedImage im]> ∅ in
  origin_shape ← py_list (origin_shape info);
  resize_shape ← py_list (resize_shape info);
  let scale := scale info in
  if py_in "YOLO" model_arch then
    let origin_shape := Matrix int32 [of_nat <$> swap_columns origin_shape] in
    let resize_shape := Matrix int32 [of_nat <$> swap_columns resize_shape] in
    Ok (<["resize_shape" := FeedArray resize_shape]>
          (<["origin_shape" := FeedArray origin_shape]> inputs))
  else if py_in "RetinaNet" model_arch then
    let im_info := Matrix float32 [(of_nat <$> resize_shape) ++ [scale]] in
    Ok (<["im_info" := FeedArray im_info]> inputs)
  else if py_in "RCNN" model_arch then
    let im_info := Matrix float32 [(of_nat <$> resize_shape) ++ [scale]] in
    let im_shape := Matrix float32 [(of_nat <$> origin_shape) ++ [1%Q]] in
    Ok (<["im_shape" := FeedArray im_shape]>
          (<["im_info" := FeedArray im_info]> inputs))
  else Ok inputs.

(** ** Config *)

(** One entry of the [Preprocess] list of [infer_cfg.yml]: the operator named
    by [type] with its keyword arguments; an argument with a default in the
    operator's [__init__] may be absent. *)
Inductive op_info : Type :=
  | ResizeInfo (target_size max_size : Z) (use_cv2 : option bool)
               (image_shape : option (list Z)) (interp : option Z)
  | NormalizeInfo (mean std : list Q) (is_scale is_channel_first : option bool)
  | PermuteInfo (to_bgr channel_first : option bool)
  | PadStrideInfo (stride : option Z).

Record Config : Type := {
  cfg_arch : string;
  preprocess_infos : list op_info;
  use_python_inference : bool;
  min_subgraph_size : Z;
  mode : string;
  draw_threshold : Q;
  labels : list string;
  mask_resolution : option Z
}.

Definition support_models : list string :=
  ["YOLO"; "SSD"; "RetinaNet"; "RCNN"; "Face"]%string.

(** [Config.check_model] *)
Definition check_model (yml_arch : string) : result bool :=
  if existsb (fun support_model => py_in support_model yml_arch) support_models
  then Ok true
  else Raise ValueError.

(** [Config.__init__] on the parsed YAML document. *)
Definition Config_init (yml_conf : Config) : result Config :=
  _ ← check_model (cfg_arch yml_conf);
  Ok yml_conf.

(** [load_predictor]: the two validations that precede the construction of
    the engine's predictor. *)
Definition load_predictor (run_mode : string) (use_gpu : bool) : result unit :=
  if negb use_gpu && negb (String.eqb run_mode "fluid") then Raise ValueError
  else if String.eqb run_mode "trt_int8" then Raise ValueError
  else Ok ().

(** ** Detector *)

Inductive operator : Type :=
  | OpResize (op : Resize)
  | OpNormalize (op : Normalize)
  | OpPermute (op : Permute)
  | OpPadStride (op : PadStride).

(** [operator(im, im_info)] *)
Definition operator_call (op : operator) (im : image) (info : im_info)
  : result op_return :=
  match op with
  | OpResize r => '(im, info) ← Resize_call r im info; Ok (RetPair im info)
  | OpNormalize n => '(im, info) ← Normalize_call n im info; Ok (RetPair im info)
  | OpPermute p => '(im, info) ← Permute_call p im info; Ok (RetPair im info)
  | OpPadStride p => PadStride_call p im info
  end.

(** [eval(op_type)] called with the keyword arguments of [op_info], with
    [arch] added to a Resize entry and the defaults of each [__init__]
    filled in. *)
Definition build_op (arch : string) (info : op_info) : operator :=
  match info with
  | ResizeInfo target_size max_size use_cv2 image_shape interp =>
      OpResize (Resize_init arch target_size max_size
                  (default true use_cv2) image_shape (default 1 interp))
  | NormalizeInfo mean std is_scale is_channel_first =>
      OpNormalize {| mean := mean; std := std;
                     is_scale := default true is_scale;
                     is_channel_first := default false is_channel_first |}
  | PermuteInfo to_bgr channel_first =>
      OpPermute {| to_bgr := default false to_bgr;
                   channel_first := default true channel_first |}
  | PadStrideInfo stride =>
      OpPadStride {| coarsest_stride := default 0 stride |}
  end.

(** The loaded model is external: [engine] maps the fed tensors to the
    output tensors of one run, each already reduced to batch item 0. *)
Record Detector : Type := {
  config : Config;
  preprocess_ops : list operator;
  engine : gmap string feed → list ndarray
}.

(** [Detector.__init__]; [model] is what the engine loads from [model_dir]. *)
Definition Detector_init (model : gmap string feed → list ndarray)
    (config : Config) (use_gpu : bool) (run_mode : string) : result Detector :=
  _ ← (if use_python_inference config then Ok ()
       else load_predictor run_mode use_gpu);
  Ok {| config := config;
        preprocess_ops := build_op (cfg_arch config) <$> preprocess_infos config;
        engine := model |}.

(** The tuple assignment [im, im_info = operator(im, im_info)].  A bare array
    is unpacked along its first axis: that fails unless the axis has length
    two, and then binds both names to sub-arrays, after which no statement of
    the pipeline can complete ([create_inputs] at the latest subscripts
    [im_info] with a string). *)
Definition unpack_pair (r : op_return) : result (image * im_info) :=
  match r with
  | RetPair im info => Ok (im, info)
  | RetImage im =>
      if (dim0 im =? 2)%nat then Raise ArrayAsInfo else Raise ValueError
  end.

(** The loop over [self.preprocess_ops]. *)
Fixpoint apply_ops (ops : list operator) (im : image) (info : im_info)
  : result (image * im_info) :=
  match ops with
  | [] => Ok (im, info)
  | operator :: ops' =>
      r ← operator_call operator im info;
      '(im, info) ← unpack_pair r;
      apply_ops ops' im info
  end.

(** [Detector.preprocess] *)
Definition preprocess (self : Detector) (im : image)
  : result (gmap string feed * im_info) :=
  let info := {| scale := 1; origin_shape := None; resize_shape := None |} in
  let '(im, info) := decode_image im info in
  '(im, info) ← apply_ops (preprocess_ops self) im info;
  inputs ← create_inputs im info (cfg_arch (config self));
  Ok (inputs, info).

(** [a[mask]] for a boolean mask along the first axis. *)
Fixpoint mask_select {A : Type} (mask : list bool) (xs : list A) : list A :=
  match mask, xs with
  | keep :: mask', x :: xs' =>
      if keep then x :: mask_select mask' xs' else mask_select mask' xs'
  | _, _ => []
  end.

Definition bool_index {A : Type} (mask : list bool) (xs : list A)
  : result (list A) :=
  if (length mask =? length xs)%nat then Ok (mask_select mask xs)
  else Raise IndexError.

(** [a[i]] *)
Definition getitem {A : Type} (xs : list A) (i : nat) : result A :=
  match xs !! i with
  | Some x => Ok x
  | None => Raise IndexError
  end.

(** The [print] loop of [postprocess]: row [i] formats [classes[i]],
    [scores[i]] and [box[0]] to [box[3]]. *)
Fixpoint print_boxes (i : nat) (boxes : list (list Q)) (scores classes : list Q)
  : result unit :=
  match boxes with
  | [] => Ok ()
  | box :: boxes' =>
      _ ← getitem classes i;
      _ ← getitem scores i;
      _ ← getitem box 0; _ ← getitem box 1;
      _ ← getitem box 2; _ ← getitem box 3;
      print_boxes (S i) boxes' scores classes
  end.

(** [x > threshold] for an entry [x] of an array of dtype [dt] and a Python
    float [threshold], as numpy evaluates it: in the dtype of the array when
    that is a float type, the threshold being rounded to it, and in binary64
    for an integer array. *)
Definition np_greater (dt : dtype) (x threshold : Q) : bool :=
  match dt with
  | float32 => Qltb (binary32 threshold) x
  | float64 => Qltb threshold x
  | int32 | int64 => Qltb threshold (binary64 x)
  end.

(** [Detector.postprocess] *)
Definition postprocess (boxes : matrix) (scores classes : vector)
    (info : im_info) (threshold : Q) : result (gmap string ndarray) :=
  '(boxes, scores, classes) ←
    (if Qltb 0 threshold then
       let expect_boxes :=
         (fun s => np_greater (vdtype scores) s threshold) <$> vdata scores in
       rows ← bool_index expect_boxes (mrows boxes);
       let boxes := Matrix (mdtype boxes) rows in
       let scores := Vector (vdtype scores)
                            (mask_select expect_boxes (vdata scores)) in
       kept ← bool_index expect_boxes (vdata classes);
       let classes := Vector (vdtype classes) kept in
       Ok (boxes, scores, classes)
     else Ok (boxes, scores, classes));
  _ ← print_boxes 0 (mrows boxes) (vdata scores) (vdata classes);
  Ok (<["classes" := Vec classes]>
        (<["scores" := Vec scores]>
           (<["boxes" := Mat boxes]> ∅))).

(** The local variables [boxes], [scores] and [classes] of [predict]; [None]
    is a name that has not been assigned. *)
Record locals : Type := Locals {
  boxes : option matrix;
  scores : option vector;
  classes : option vector
}.

Definition unassigned : locals :=
  {| boxes := None; scores := None; classes := None |}.

(** One iteration of [for o in [outs0, outs1, outs2]]. *)
Definition assign_output (st : locals) (o : ndarray) : locals :=
  match o with
  | Mat m =>
      {| boxes := Some m; scores := scores st; classes := classes st |}
  | Vec v =>
      if decide (vdtype v = float32)
      then {| boxes := boxes st; scores := Some v; classes := classes st |}
      else {| boxes := boxes st; scores := scores st; classes := Some v |}
  end.

(** The disambiguation loop. *)
Definition disambiguate (outs : list ndarray) (st : locals) : locals :=
  foldl assign_output st outs.

(** The first three output tensors, [outs[0]] to [outs[2]]. *)
Definition fetch3 (outs : list ndarray) : result (list ndarray) :=
  match outs with
  | o0 :: o1 :: o2 :: _ => Ok [o0; o1; o2]
  | _ => Raise IndexError
  end.

(** Reading a local variable. *)
Definition read_local {A : Type} (name : string) (v : option A) : result A :=
  match v with
  | Some a => Ok a
  | None => Raise (UnboundLocalError name)
  end.

(** [{'boxes': np.array([])}] *)
Definition no_object_result : gmap string ndarray :=
  {[ "boxes" := Vec (Vector float64 []) ]}.

(** The [use_python_inference] branch of [predict]: the executor runs
    [warmup + repeats] times, the three outputs are stored in [np_boxes],
    [np_boxes2] and [np_boxes3]. *)
Definition run_executor (self : Detector) (inputs : gmap string feed)
    (warmup repeats : Z) : result locals :=
  let outs := if (0 <? warmup) || (0 <? repeats)
              then Some (engine self inputs) else None in
  _ ← (if repeats =? 0 then Raise ZeroDivisionError else Ok ());
  outs ← read_local "outs" outs;
  _ ← fetch3 outs;
  Ok unassigned.

(** The predictor branch of [predict]: every run fetches three output
    tensors, every timed run also sorts them into the local variables. *)
Definition run_predictor (self : Detector) (inputs : gmap string feed)
    (warmup repeats : Z) : result locals :=
  _ ← (if 0 <? warmup then fetch3 (engine self inputs) else Ok []);
  st ← (if 0 <? repeats
        then outs ← fetch3 (engine self inputs);
             Ok (disambiguate outs unassigned)
        else Ok unassigned);
  _ ← (if repeats =? 0 then Raise ZeroDivisionError else Ok ());
  Ok st.

(** The end of [predict]: the no-object test on [scores[0]], then
    [postprocess]. *)
Definition finish_predict (st : locals) (info : im_info) (threshold : Q)
  : result (gmap string ndarray) :=
  sc ← read_local "scores" (scores st);
  first ← getitem (vdata sc) 0;
  if Qltb first 0 then Ok no_object_result
  else
    bx ← read_local "boxes" (boxes st);
    cl ← read_local "classes" (classes st);
    postprocess bx sc cl info threshold.

(** [Detector.predict] *)
Definition predict (self : Detector) (image : image) (threshold : Q)
    (warmup repeats : Z) : result (gmap string ndarray) :=
  '(inputs, info) ← preprocess self image;
  st ← (if use_python_inference (config self)
        then run_executor self inputs warmup repeats
        else run_predictor self inputs warmup repeats);
  finish_predict st info threshold.

(** ** Sample configurations and inputs *)

Definition blank_info : im_info :=
  {| scale := 1; origin_shape := None; resize_shape := None |}.

(** A 100 x 200 RGB frame and a 304 x 304 one. *)
Definition frame_100x200 : image := Image 100 200 3.
Definition frame_304 : image := Image 304 304 3.

(** A region-proposal Resize: shorter edge to 50, canvas of 128. *)
Definition rcnn_resize : Resize := Resize_init "RCNN" 50 128 true None 1.

(** The same policy with the cap in force: 100 x 256 scaled to 50 x 128. *)
Definition frame_100x256 : image := Image 100 256 3.
Definition capped_rcnn_resize : Resize := Resize_init "RCNN" 100 128 true None 1.

(** A capped Resize on the PIL path. *)
Definition capped_pil_resize_info : op_info :=
  ResizeInfo 608 608 (Some false) None (Some 2).

Definition yolo_preprocess : list op_info :=
  [ ResizeInfo 608 0 None None (Some 2);
    NormalizeInfo [1 # 2; 1 # 2; 1 # 2]%Q [1 # 4; 1 # 4; 1 # 4]%Q
                  (Some true) (Some false);
    PermuteInfo (Some false) (Some true) ].

Definition yolo_config (python_inference : bool) (ops : list op_info) : Config :=
  {| cfg_arch := "YOLO"; preprocess_infos := ops;
     use_python_inference := python_inference; min_subgraph_size := 3;
     mode := "fluid"; draw_threshold := 1 # 2;
     labels := ["person"; "car"]%string; mask_resolution := None |}.

(** Raw outputs of a model that found two boxes, in the order the engine
    happens to list them. *)
Definition two_boxes : matrix :=
  Matrix float32 [[10; 20; 30; 40]; [1; 2; 3; 4]]%Q.
Definition two_scores : vector := Vector float32 [3 # 4; 1 # 4]%Q.
Definition two_classes : vector := Vector int32 [0; 2]%Q.

Definition two_box_model (_ : gmap string feed) : list ndarray :=
  [Vec two_scores; Mat two_boxes; Vec two_classes].

(** Raw outputs of a model that found nothing: the first score is negative. *)
Definition no_object_model (_ : gmap string feed) : list ndarray :=
  [Mat two_boxes; Vec (Vector float32 [-1; 3 # 4]%Q); Vec two_classes].

Definition yolo_detector (python_inference : bool)
    (model : gmap string feed → list ndarray) : Detector :=
  {| config := yolo_config python_inference yolo_preprocess;
     preprocess_ops := build_op "YOLO" <$> yolo_preprocess;
     engine := model |}.

(** Two rank-2 outputs and a float32 vector whose first entry is negative:
    no tensor can serve as [classes] and two compete for [boxes]. *)
Definition other_boxes : matrix := Matrix float32 [[5; 6; 7; 8]]%Q.

Definition ambiguous_model (_ : gmap string feed) : list ndarray :=
  [Mat two_boxes; Mat other_boxes; Vec (Vector float32 [-1]%Q)].

(** Metadata as [decode_image] and a direct Resize to 300 leave it. *)
Definition ssd_info : im_info :=
  {| scale := 1; origin_shape := Some (480, 640)%nat;
     resize_shape := Some (300, 300)%nat |}.

(** ** The three tests of the disambiguation loop, as partial views *)

(** [len(o.shape) == 2] *)
Definition as_boxes (o : ndarray) : option matrix :=
  match o with
  | Mat m => Some m
  | Vec _ => None
  end.

(** not rank 2, and [o.dtype == np.float32] *)
Definition as_scores (o : ndarray) : option vector :=
  match o with
  | Vec v => if decide (vdtype v = float32) then Some v else None
  | Mat _ => None
  end.

(** not rank 2, and any other dtype *)
Definition as_classes (o : ndarray) : option vector :=
  match o with
  | Vec v => if decide (vdtype v = float32) then None else Some v
  | Mat _ => None
  end.

(** ** Reading a filtered result row by row *)

(** The rows of three index-aligned arrays whose score passes [keep], as
    (box, score, class) triples in their original order. *)
Definition kept_rows (keep : Q → bool) (rows : list (list Q))
    (scores classes : list Q) : list (list Q * Q * Q) :=
  List.filter (fun r => keep r.1.2) (zip (zip rows scores) classes).

(** ** Inputs on which binary rounding decides *)

(** A Resize whose uncapped scale 7/10 puts the longest side of a 10 x 45
    image at 31.5 in exact arithmetic. *)
Definition tight_rcnn_resize : Resize := Resize_init "RCNN" 7 31 true None 1.
Definition frame_10x45 : image := Image 10 45 3.

(** The binary64 number nearest to 7/10, Python's [0.7]. *)
Definition seven_tenths : Q := 3152519739159347 # 4503599627370496.

(** A cap between 2^51 and 2^52 on a 1 x 2568 image: every integer involved
    is a binary64 number, and the two rounding errors of the capped scale
    add up to more than one half. *)
Definition huge_cap : Z := 3427271084610569.
Definition huge_rcnn_resize : Resize :=
  Resize_init "RCNN" huge_cap huge_cap true None 1.
Definition frame_1x2568 : image := Image 1 2568 3.

(** Python's [0.1] and [np.float32(0.1)]: the nearest binary64 and binary32
    numbers to one tenth; the second is the larger. *)
Definition tenth : Q := 3602879701896397 # 36028797018963968.
Definition tenth_f32 : Q := 13421773 # 134217728.

(** ** Further sample configurations and models *)

(** A Mask-RCNN export: the architecture name contains RCNN without being a
    member of the scale set; the recipe resizes to 128 under a cap of 128. *)
Definition mask_rcnn_config : Config :=
  {| cfg_arch := "MaskRCNN";
     preprocess_infos := [ResizeInfo 128 128 None None None];
     use_python_inference := false; min_subgraph_size := 3;
     mode := "fluid"; draw_threshold := 1 # 2;
     labels := ["person"]%string; mask_resolution := Some 14 |}.

Definition mask_rcnn_detector (model : gmap string feed → list ndarray)
  : Detector :=
  {| config := mask_rcnn_config;
     preprocess_ops := build_op "MaskRCNN" <$> preprocess_infos mask_rcnn_config;
     engine := model |}.

(** A recipe that ends in a PadStride entry without a [stride] argument. *)
Definition fpn_config : Config :=
  {| cfg_arch := "YOLO";
     preprocess_infos := yolo_preprocess ++ [PadStrideInfo None];
     use_python_inference := false; min_subgraph_size := 3;
     mode := "fluid"; draw_threshold := 1 # 2;
     labels := ["person"]%string; mask_resolution := None |}.

Definition fpn_detector (model : gmap string feed → list ndarray) : Detector :=
  {| config := fpn_config;
     preprocess_ops := build_op "YOLO" <$> preprocess_infos fpn_config;
     engine := model |}.


Definition empty_model (_ : gmap string feed) : list ndarray :=
  [Mat (Matrix float32 []); Vec (Vector float32 []); Vec (Vector int32 [])].


(** * Properties *)

(** ** The error monad *)

Lemma bind_Ok {A B : Type} (a : A) (f : A → result B) : Ok a ≫= f = f a.
Proof. reflexivity. Qed.

Lemma bind_Raise {A B : Type} (e : exn) (f : A → result B) :
  Raise e ≫= f = Raise e.
Proof. reflexivity. Qed.

Lemma bind_Ok_inv {A B : Type} (m : result A) (f : A → result B) (b : B) :
  m ≫= f = Ok b → ∃ a, m = Ok a ∧ f a = Ok b.
Proof. destruct m as [a|e]; [eauto | discriminate]. Qed.

Ltac py_run := rewrite ?bind_Ok, ?bind_Raise; cbv beta.

(** Splits a hypothesis [m ≫= f = Ok b] into the two successful steps. *)
Ltac py_inv H :=
  let a := fresh "a" in
  let Ha := fresh "Hstep" in
  apply bind_Ok_inv in H as (a & Ha & H).

(** ** The runtime model on small inputs *)

(** [np.round] and [cvRound] send ties to the even neighbour. *)
Example np_round_ties :
  np_round (5 # 2) = 2 ∧ np_round (7 # 2) = 4 ∧ np_round (-5 # 2) = -2
  ∧ np_round (13 # 5) = 3.
Proof. repeat split; reflexivity. Qed.

Example py_int_truncates : py_int (-5 # 2) = -2 ∧ py_int (5 # 2) = 2.
Proof. split; reflexivity. Qed.

(** [in] on strings is a substring test, [in] on [scale_set] is equality
    with a member: a Mask-RCNN model is an RCNN for [create_inputs] and
    [check_model] but is resized with the direct policy. *)
Example MaskRCNN_membership :
  py_in "RCNN" "MaskRCNN" = true ∧ in_scale_set "MaskRCNN" = false
  ∧ in_scale_set "RCNN" = true ∧ py_in "YOLO" "SSD" = false.
Proof. repeat split; reflexivity. Qed.

(** The YOLO recipe on a 152 x 304 frame: stretched to 608 x 608, permuted
    to CHW, and the shapes are fed as [W, H]. *)
Example preprocess_yolo_frame :
  preprocess (yolo_detector false two_box_model) (Image 152 304 3)
  = Ok (<["resize_shape" := FeedArray (Matrix int32 [[608; 608]]%Q)]>
          (<["origin_shape" := FeedArray (Matrix int32 [[304; 152]]%Q)]>
             (<["image" := FeedImage (Image 3 608 608)]> ∅)),
        {| scale := 1; origin_shape := Some (152, 304)%nat;
           resize_shape := Some (608, 608)%nat |}).
Proof. vm_compute. reflexivity. Qed.

(** ** Numeric facts *)

Section Rounding.

#[local] Instance np_round_proper : Proper (Qeq ==> eq) np_round.
Proof.
  intros p q Hpq. unfold np_round.
  rewrite (Qfloor_comp _ _ Hpq).
  assert (Hc : (p - inject_Z (Qfloor q) ?= 1 # 2)%Q
               = (q - inject_Z (Qfloor q) ?= 1 # 2)%Q)
    by (now rewrite Hpq).
  now rewrite Hc.
Qed.

Lemma np_round_integer (z : Z) : np_round (inject_Z z) = z.
Proof.
  unfold np_round. rewrite Qfloor_Z.
  assert (Hlt : (inject_Z z - inject_Z z < 1 # 2)%Q).
  { unfold Qlt. simpl. lia. }
  now rewrite (proj1 (Qlt_alt _ _) Hlt).
Qed.

Lemma float_nonzero (z : Z) : z ≠ 0 → Qeq_bool (float z) 0 = false.
Proof.
  intros Hz. destruct (Qeq_bool (float z) 0) eqn:E; [|done].
  apply Qeq_bool_eq in E. unfold float, Qeq in E. simpl in E. lia.
Qed.

Lemma py_truediv_float (a b : Z) :
  b ≠ 0 → py_truediv (float a) (float b) = Ok (float a / float b)%Q.
Proof. intros Hb. unfold py_truediv. now rewrite float_nonzero. Qed.

Lemma Qltb_lt (a b : Q) : Qltb a b = true ↔ (a < b)%Q.
Proof.
  unfold Qltb. rewrite negb_true_iff.
  split.
  - intros H. apply Qnot_le_lt. intros Hle.
    apply Qle_bool_iff in Hle. congruence.
  - intros H. destruct (Qle_bool b a) eqn:E; [|done].
    apply Qle_bool_iff in E. exfalso. exact (Qlt_not_le _ _ H E).
Qed.

End Rounding.

Section RoundingOrder.

Lemma np_round_Qeq (p q : Q) : (p == q)%Q → np_round p = np_round q.
Proof.
  intros Hpq. unfold np_round. rewrite (Qfloor_comp _ _ Hpq).
  assert (Hc : (p - inject_Z (Qfloor q) ?= 1 # 2)%Q
               = (q - inject_Z (Qfloor q) ?= 1 # 2)%Q)
    by (now rewrite Hpq).
  now rewrite Hc.
Qed.

Lemma np_round_range (q : Q) :
  Qfloor q ≤ np_round q ≤ Qfloor q + 1.
Proof.
  unfold np_round. destruct (_ ?= _)%Q; [destruct (Z.even _)|..]; lia.
Qed.

(** Rounding to nearest, ties to even, is monotone. *)
Lemma np_round_mono (p q : Q) : (p <= q)%Q → np_round p ≤ np_round q.
Proof.
  intros Hpq. pose proof (Qfloor_resp_le _ _ Hpq) as Hfl.
  destruct (Z.eq_dec (Qfloor p) (Qfloor q)) as [Heq | Hne].
  - unfold np_round. rewrite Heq. set (f := Qfloor q).
    assert (Hd : (p - inject_Z f <= q - inject_Z f)%Q).
    { apply Qplus_le_l with (z := inject_Z f). ring_simplify. exact Hpq. }
    assert (Hhalf : ∀ x y : Q, (x <= y)%Q → (1 # 2 <= x)%Q → (y < 1 # 2)%Q → False).
    { intros x y Hxy Hx Hy. apply (Qlt_irrefl (1 # 2)).
      eapply Qle_lt_trans; [exact Hx|]. eapply Qle_lt_trans; [exact Hxy|exact Hy]. }
    assert (Hover : ∀ x y : Q, (x <= y)%Q → (1 # 2 < x)%Q → (y <= 1 # 2)%Q → False).
    { intros x y Hxy Hx Hy. apply (Qlt_irrefl (1 # 2)).
      eapply Qlt_le_trans; [exact Hx|]. eapply Qle_trans; [exact Hxy|exact Hy]. }
    destruct (Qcompare_spec (p - inject_Z f) (1 # 2)) as [Hp | Hp | Hp];
      destruct (Qcompare_spec (q - inject_Z f) (1 # 2)) as [Hq | Hq | Hq];
      first
        [ exfalso; apply (Hhalf _ _ Hd); [rewrite Hp; apply Qle_refl | exact Hq]
        | exfalso; apply (Hover _ _ Hd); [exact Hp | rewrite Hq; apply Qle_refl]
        | exfalso; apply (Hover _ _ Hd); [exact Hp | apply Qlt_le_weak, Hq]
        | destruct (Z.even f); lia ].
  - pose proof (np_round_range p). pose proof (np_round_range q). lia.
Qed.

Lemma float_pos (z : Z) : 0 < z → (0 < float z)%Q.
Proof.
  intros Hz. change (inject_Z 0 < inject_Z z)%Q. now rewrite <- Zlt_Qlt.
Qed.

Lemma float_div_pos (a b : Z) : 0 < a → 0 < b → (0 < float a / float b)%Q.
Proof.
  intros Ha Hb. apply Qlt_shift_div_l; [apply float_pos, Hb|].
  rewrite Qmult_0_l. apply float_pos, Ha.
Qed.

(** Scaling a side by [target / side] lands exactly on [target]. *)
Lemma cvRound_rescale (side target : Z) :
  side ≠ 0 → cvRound (float side * (float target / float side)) = target.
Proof.
  intros Hs. unfold cvRound.
  rewrite (np_round_Qeq _ (inject_Z target)); [apply np_round_integer|].
  unfold float. field. intros H. unfold Qeq in H. simpl in H. lia.
Qed.

End RoundingOrder.

(** ** Binary rounding *)

Section BinaryRounding.

Lemma pow2_pos (e : Z) : (0 < pow2 e)%Q.
Proof. apply Qpower_0_lt. reflexivity. Qed.

Lemma pow2_add (a b : Z) : (pow2 (a + b) == pow2 a * pow2 b)%Q.
Proof. apply Qpower_plus. discriminate. Qed.

Lemma pow2_le (a b : Z) : a ≤ b → (pow2 a <= pow2 b)%Q.
Proof. intros H. apply Qpower_le_compat_l; [exact H | discriminate]. Qed.

Lemma pow2_lt_inv (a b : Z) : (pow2 a < pow2 b)%Q → a < b.
Proof. intros H. eapply Qpower_lt_compat_l_inv; [exact H | reflexivity]. Qed.

Lemma pow2_Z (e : Z) : 0 ≤ e → (pow2 e == inject_Z (2 ^ e))%Q.
Proof. intros H. symmetry. apply (Zpower_Qpower 2 e H). Qed.

Lemma Qdiv_pow2 (q : Q) (e : Z) : (q / pow2 e * pow2 e == q)%Q.
Proof.
  rewrite Qmult_comm. apply Qmult_div_r. intros H. pose proof (pow2_pos e) as Hp.
  rewrite H in Hp. exact (Qlt_irrefl _ Hp).
Qed.

Lemma Qdiv_pow2_le (p q : Q) (e : Z) :
  (p <= q)%Q → (p / pow2 e <= q / pow2 e)%Q.
Proof.
  intros H. apply Qmult_le_compat_r; [exact H|].
  apply Qlt_le_weak, Qinv_lt_0_compat, pow2_pos.
Qed.

(** [ilog2] is the binary exponent. *)
Lemma ilog2_spec (q : Q) :
  (0 < q)%Q → (pow2 (ilog2 q) <= q)%Q ∧ (q < pow2 (ilog2 q + 1))%Q.
Proof.
  intros Hq. unfold ilog2.
  rewrite (Qabs_pos q) by (apply Qlt_le_weak, Hq).
  destruct q as [n d]. cbn [Qnum Qden].
  assert (Hn : 0 < n) by (unfold Qlt in Hq; simpl in Hq; lia).
  rewrite (Z.abs_eq n) by lia.
  set (a := Z.log2 n). set (b := Z.log2 (Zpos d)).
  destruct (Z.log2_spec n Hn) as [Ha1 Ha2]. fold a in Ha1, Ha2.
  destruct (Z.log2_spec (Zpos d) ltac:(lia)) as [Hb1 Hb2]. fold b in Hb1, Hb2.
  assert (Ha0 : 0 ≤ a) by apply Z.log2_nonneg.
  assert (Hb0 : 0 ≤ b) by apply Z.log2_nonneg.
  replace (Z.succ a) with (a + 1) in Ha2 by lia.
  replace (Z.succ b) with (b + 1) in Hb2 by lia.
  assert (Hup : (n # d < pow2 (a - b + 1))%Q).
  { apply Qmult_lt_r with (z := pow2 b); [apply pow2_pos|].
    rewrite <- pow2_add. replace (a - b + 1 + b) with (a + 1) by lia.
    rewrite !pow2_Z by lia.
    unfold Qlt, Qmult, inject_Z. cbn [Qnum Qden]. rewrite Pos.mul_1_r.
    apply Z.le_lt_trans with (m := n * Zpos d); [|nia].
    rewrite Z.mul_1_r. apply Z.mul_le_mono_nonneg_l; lia. }
  assert (Hlow : (pow2 (a - b - 1) < n # d)%Q).
  { apply Qmult_lt_r with (z := pow2 (b + 1)); [apply pow2_pos|].
    rewrite <- pow2_add. replace (a - b - 1 + (b + 1)) with a by lia.
    rewrite !pow2_Z by lia.
    unfold Qlt, Qmult, inject_Z. cbn [Qnum Qden]. rewrite Pos.mul_1_r.
    rewrite Z.mul_1_r.
    apply Z.le_lt_trans with (m := n * Zpos d);
      [apply Z.mul_le_mono_nonneg_r; lia|].
    apply Z.mul_lt_mono_pos_l; lia. }
  destruct (Qle_bool (pow2 (a - b)) (n # d)) eqn:E.
  - apply Qle_bool_iff in E. split; [exact E | exact Hup].
  - assert (Hlt : (n # d < pow2 (a - b))%Q).
    { apply Qnot_le_lt. intros H. apply Qle_bool_iff in H. congruence. }
    replace (a - b - 1 + 1) with (a - b) by lia.
    split; [apply Qlt_le_weak, Hlow | exact Hlt].
Qed.

Lemma ilog2_mono (p q : Q) :
  (0 < p)%Q → (p <= q)%Q → ilog2 p ≤ ilog2 q.
Proof.
  intros Hp Hpq.
  assert (Hq : (0 < q)%Q) by (eapply Qlt_le_trans; eassumption).
  destruct (ilog2_spec p Hp) as [Hp1 _].
  destruct (ilog2_spec q Hq) as [_ Hq2].
  assert (H : (pow2 (ilog2 p) < pow2 (ilog2 q + 1))%Q).
  { eapply Qle_lt_trans; [exact Hp1|].
    eapply Qle_lt_trans; [exact Hpq | exact Hq2]. }
  apply pow2_lt_inv in H. lia.
Qed.

Lemma ilog2_ge (q : Q) (l : Z) : (pow2 l <= q)%Q → l ≤ ilog2 q.
Proof.
  intros H.
  assert (Hq : (0 < q)%Q) by (eapply Qlt_le_trans; [apply pow2_pos | exact H]).
  destruct (ilog2_spec q Hq) as [_ Hq2].
  assert (H' : (pow2 l < pow2 (ilog2 q + 1))%Q)
    by (eapply Qle_lt_trans; eassumption).
  apply pow2_lt_inv in H'. lia.
Qed.

(** The value of [round_binary]: the rounded significand times the unit in
    the last place. *)
Lemma round_binary_value (prec emin : Z) (q : Q) :
  ¬ (q == 0)%Q →
  let e := Z.max emin (ilog2 q - (prec - 1)) in
  (round_binary prec emin q == inject_Z (np_round (q / pow2 e)) * pow2 e)%Q.
Proof.
  intros Hq e. unfold round_binary.
  destruct (Qeq_bool q 0) eqn:E0; [apply Qeq_bool_eq in E0; done|].
  fold e. destruct (Qeq_bool _ q) eqn:E; [|apply Qred_correct].
  apply Qeq_bool_eq in E. symmetry. exact E.
Qed.

Lemma Qpos_nonzero (q : Q) : (0 < q)%Q → ¬ (q == 0)%Q.
Proof. intros H E. rewrite E in H. exact (Qlt_irrefl _ H). Qed.

Lemma np_round_nonneg (q : Q) : (0 <= q)%Q → 0 ≤ np_round q.
Proof.
  intros H. change 0 with (np_round (inject_Z 0)) at 1.
  - apply np_round_mono, H.
Qed.

Lemma inject_Z_pow2_le (m : Z) (p q : Q) (e : Z) :
  True → (inject_Z m * pow2 e <= p)%Q → (p <= q)%Q → (inject_Z m * pow2 e <= q)%Q.
Proof. intros _ H1 H2. eapply Qle_trans; eassumption. Qed.

Lemma round_binary_nonneg (prec emin : Z) (q : Q) :
  (0 <= q)%Q → (0 <= round_binary prec emin q)%Q.
Proof.
  intros Hq. destruct (Qeq_dec q 0) as [E | E].
  - unfold round_binary. rewrite (proj2 (Qeq_bool_iff q 0) E). exact Hq.
  - rewrite (round_binary_value prec emin q E). cbv zeta.
    apply Qmult_le_0_compat; [|apply Qlt_le_weak, pow2_pos].
    change 0%Q with (inject_Z 0). rewrite <- Zle_Qle.
    apply np_round_nonneg.
    apply Qle_shift_div_l; [apply pow2_pos|]. rewrite Qmult_0_l. exact Hq.
Qed.

(** Below a power of two the rounded value stays below it. *)
Lemma round_binary_below (prec emin : Z) (q : Q) (k : Z) :
  (0 < q)%Q → (q <= pow2 k)%Q →
  Z.max emin (ilog2 q - (prec - 1)) ≤ k →
  (round_binary prec emin q <= pow2 k)%Q.
Proof.
  intros Hq Hk He.
  rewrite (round_binary_value prec emin q (Qpos_nonzero q Hq)). cbv zeta.
  set (e := Z.max emin (ilog2 q - (prec - 1))) in *.
  assert (Hm : np_round (q / pow2 e) ≤ 2 ^ (k - e)).
  { rewrite <- (np_round_integer (2 ^ (k - e))). apply np_round_mono.
    rewrite <- pow2_Z by lia.
    apply Qle_shift_div_r; [apply pow2_pos|].
    rewrite <- pow2_add. replace (k - e + e) with k by lia. exact Hk. }
  apply Qle_trans with (y := (inject_Z (2 ^ (k - e)) * pow2 e)%Q).
  - apply Qmult_le_compat_r; [|apply Qlt_le_weak, pow2_pos].
    rewrite <- Zle_Qle. exact Hm.
  - rewrite <- pow2_Z by lia. rewrite <- pow2_add.
    replace (k - e + e) with k by lia. apply Qle_refl.
Qed.

(** A normal number rounds to at least the power of two below it. *)
Lemma round_binary_above (prec emin : Z) (q : Q) :
  0 < prec → (0 < q)%Q → emin ≤ ilog2 q - (prec - 1) →
  (pow2 (ilog2 q) <= round_binary prec emin q)%Q.
Proof.
  intros Hp Hq Hnormal.
  rewrite (round_binary_value prec emin q (Qpos_nonzero q Hq)). cbv zeta.
  rewrite Z.max_r by lia. set (e := ilog2 q - (prec - 1)).
  destruct (ilog2_spec q Hq) as [Hl _].
  assert (Hm : 2 ^ (prec - 1) ≤ np_round (q / pow2 e)).
  { rewrite <- (np_round_integer (2 ^ (prec - 1))). apply np_round_mono.
    rewrite <- pow2_Z by lia.
    apply Qle_shift_div_l; [apply pow2_pos|].
    rewrite <- pow2_add. replace (prec - 1 + e) with (ilog2 q) by (subst e; lia).
    exact Hl. }
  apply Qle_trans with (y := (inject_Z (2 ^ (prec - 1)) * pow2 e)%Q).
  - rewrite <- pow2_Z by lia. rewrite <- pow2_add.
    replace (prec - 1 + e) with (ilog2 q) by (subst e; lia). apply Qle_refl.
  - apply Qmult_le_compat_r; [|apply Qlt_le_weak, pow2_pos].
    rewrite <- Zle_Qle. exact Hm.
Qed.

(** Rounding is monotone on the positive numbers. *)
Lemma round_binary_mono (prec emin : Z) (p q : Q) :
  0 < prec → (0 < p)%Q → (p <= q)%Q →
  (round_binary prec emin p <= round_binary prec emin q)%Q.
Proof.
  intros Hprec Hp Hpq.
  assert (Hq : (0 < q)%Q) by (eapply Qlt_le_trans; eassumption).
  pose proof (ilog2_mono p q Hp Hpq) as Hl.
  set (e1 := Z.max emin (ilog2 p - (prec - 1))).
  set (e2 := Z.max emin (ilog2 q - (prec - 1))).
  destruct (Z.eq_dec e1 e2) as [Heq | Hne].
  - rewrite (round_binary_value prec emin p (Qpos_nonzero p Hp)),
            (round_binary_value prec emin q (Qpos_nonzero q Hq)).
    cbv zeta. fold e1 e2. rewrite Heq.
    apply Qmult_le_compat_r; [|apply Qlt_le_weak, pow2_pos].
    rewrite <- Zle_Qle. apply np_round_mono, Qdiv_pow2_le, Hpq.
  - assert (Hlt : e1 < e2) by (subst e1 e2; lia).
    assert (Hnormal : emin ≤ ilog2 q - (prec - 1)) by (subst e1 e2; lia).
    apply Qle_trans with (y := pow2 (ilog2 q)).
    + destruct (ilog2_spec p Hp) as [_ Hp2].
      apply round_binary_below; [exact Hp | | fold e1; subst e1 e2; lia].
      apply Qle_trans with (y := pow2 (ilog2 p + 1));
        [apply Qlt_le_weak, Hp2 | apply pow2_le; subst e1 e2; lia].
    + apply round_binary_above; done.
Qed.

Lemma np_round_upper (y : Q) : (inject_Z (np_round y) <= y + (1 # 2))%Q.
Proof.
  unfold np_round. pose proof (Qfloor_le y) as Hf.
  destruct (Qcompare_spec (y - inject_Z (Qfloor y)) (1 # 2)) as [E | E | E];
    [destruct (Z.even (Qfloor y))|..];
    rewrite ?inject_Z_plus; change (inject_Z 1) with 1%Q; lra.
Qed.

Lemma np_round_below_half (y : Q) (m : Z) :
  (y < inject_Z m + (1 # 2))%Q → np_round y ≤ m.
Proof.
  intros H.
  assert (Hf : Qfloor y ≤ m).
  { assert (H' : (inject_Z (Qfloor y) < inject_Z (m + 1))%Q).
    { pose proof (Qfloor_le y). rewrite inject_Z_plus.
      change (inject_Z 1) with 1%Q. lra. }
    rewrite <- Zlt_Qlt in H'. lia. }
  destruct (Z.eq_dec (Qfloor y) m) as [E | E].
  - unfold np_round. rewrite E.
    assert (Hlt : (y - inject_Z m < 1 # 2)%Q) by lra.
    rewrite (proj1 (Qlt_alt _ _) Hlt). lia.
  - pose proof (np_round_range y). lia.
Qed.

(** The relative error of rounding a normal number upwards is at most
    [2^-prec]. *)
Lemma round_binary_upper (prec emin : Z) (q : Q) :
  0 < prec → (0 < q)%Q → emin ≤ ilog2 q - (prec - 1) →
  (round_binary prec emin q <= q * (1 + pow2 (- prec)))%Q.
Proof.
  intros Hp Hq Hnormal.
  rewrite (round_binary_value prec emin q (Qpos_nonzero q Hq)). cbv zeta.
  rewrite Z.max_r by lia. set (e := ilog2 q - (prec - 1)).
  destruct (ilog2_spec q Hq) as [Hl _].
  apply Qle_trans with (y := ((q / pow2 e + (1 # 2)) * pow2 e)%Q).
  { apply Qmult_le_compat_r; [apply np_round_upper|].
    apply Qlt_le_weak, pow2_pos. }
  rewrite Qmult_plus_distr_l, Qdiv_pow2, Qmult_plus_distr_r, Qmult_1_r.
  apply Qplus_le_r.
  assert (E : ((1 # 2) * pow2 e == pow2 (ilog2 q) * pow2 (- prec))%Q).
  { rewrite <- pow2_add.
    replace (ilog2 q + - prec) with (-1 + e) by (subst e; lia).
    rewrite pow2_add. reflexivity. }
  rewrite E.
  apply Qmult_le_compat_r; [exact Hl | apply Qlt_le_weak, pow2_pos].
Qed.

Lemma cap_margin (m : Z) :
  0 < m < 2 ^ 51 →
  (inject_Z m * (1 + pow2 (-53)) * (1 + pow2 (-53)) < inject_Z m + (1 # 2))%Q.
Proof.
  intros Hm.
  assert (E : (pow2 (-53) == 1 # 9007199254740992)%Q) by reflexivity.
  rewrite E.
  unfold Qlt, Qplus, Qmult, inject_Z. cbn [Qnum Qden]. lia.
Qed.

(** Scaling a side by the rounded quotient [m / side] and rounding the
    product gives a number that rounds to at most [m]. *)
Lemma binary64_cap (m side : Z) :
  0 < m < 2 ^ 51 → 0 < side < 2 ^ 53 →
  np_round (binary64 (binary64 (float m / float side) * float side)) ≤ m.
Proof.
  intros Hm Hside. unfold float.
  set (q := (inject_Z m / inject_Z side)%Q).
  assert (Hspos : (0 < inject_Z side)%Q)
    by (change 0%Q with (inject_Z 0); rewrite <- Zlt_Qlt; lia).
  assert (Hqs : (q * inject_Z side == inject_Z m)%Q).
  { subst q. rewrite Qmult_comm. apply Qmult_div_r.
    intros E. rewrite E in Hspos. exact (Qlt_irrefl _ Hspos). }
  assert (Hone : (1 <= inject_Z side)%Q)
    by (change 1%Q with (inject_Z 1); rewrite <- Zle_Qle; lia).
  assert (Hqlow : (pow2 (-53) <= q)%Q).
  { subst q. apply Qle_shift_div_l; [exact Hspos|].
    apply Qle_trans with (y := 1%Q).
    - apply Qle_trans with (y := (pow2 (-53) * pow2 53)%Q).
      + apply Qmult_le_l; [apply pow2_pos|].
        rewrite pow2_Z by lia. rewrite <- Zle_Qle. lia.
      + rewrite <- pow2_add. apply Qle_refl.
    - change 1%Q with (inject_Z 1). rewrite <- Zle_Qle. lia. }
  assert (Hq : (0 < q)%Q) by (eapply Qlt_le_trans; [apply pow2_pos | exact Hqlow]).
  pose proof (ilog2_ge q (-53) Hqlow) as Hlq.
  assert (Hs_up : (binary64 q <= q * (1 + pow2 (-53)))%Q)
    by (apply (round_binary_upper 53 (-1074) q); [lia | exact Hq | lia]).
  assert (Hs_low : (pow2 (-53) <= binary64 q)%Q).
  { apply Qle_trans with (y := pow2 (ilog2 q)); [apply pow2_le; lia|].
    apply (round_binary_above 53 (-1074) q); [lia | exact Hq | lia]. }
  set (s := binary64 q) in *.
  set (y := (s * inject_Z side)%Q).
  assert (Hy_low : (pow2 (-53) <= y)%Q).
  { subst y. eapply Qle_trans; [exact Hs_low|].
    rewrite <- (Qmult_1_r s) at 1. apply Qmult_le_l; [|exact Hone].
    eapply Qlt_le_trans; [apply pow2_pos | exact Hs_low]. }
  assert (Hy : (0 < y)%Q) by (eapply Qlt_le_trans; [apply pow2_pos | exact Hy_low]).
  pose proof (ilog2_ge y (-53) Hy_low) as Hly.
  assert (Hy_up : (y <= inject_Z m * (1 + pow2 (-53)))%Q).
  { subst y. rewrite <- Hqs.
    assert (E : (q * inject_Z side * (1 + pow2 (-53))
                 == q * (1 + pow2 (-53)) * inject_Z side)%Q) by ring.
    rewrite E.
    apply Qmult_le_compat_r; [exact Hs_up | apply Qlt_le_weak, Hspos]. }
  assert (Hx_up : (binary64 y <= y * (1 + pow2 (-53)))%Q)
    by (apply (round_binary_upper 53 (-1074) y); [lia | exact Hy | lia]).
  apply np_round_below_half.
  eapply Qle_lt_trans; [exact Hx_up|].
  eapply Qle_lt_trans; [|apply cap_margin; exact Hm].
  apply Qmult_le_compat_r; [exact Hy_up|].
  apply Qlt_le_weak. rewrite <- (Qplus_0_r 0).
  apply Qplus_lt_le_compat; [reflexivity | apply Qlt_le_weak, pow2_pos].
Qed.

End BinaryRounding.

(** ** Resize *)

Section ResizeFacts.
Context (self : Resize) (im : image).

Lemma generate_scale_aspect :
  max_size self ≠ 0 → arch self ∈ scale_set →
  (0 < dim0 im)%nat → (0 < dim1 im)%nat →
  let size_min := Z.of_nat (Nat.min (dim0 im) (dim1 im)) in
  let size_max := Z.of_nat (Nat.max (dim0 im) (dim1 im)) in
  let uncapped := binary64 (float (target_size self) / float size_min) in
  let im_scale :=
    if max_size self <? np_round (binary64 (uncapped * float size_max))
    then binary64 (float (max_size self) / float size_max) else uncapped in
  generate_scale self im = Ok (im_scale, im_scale).
Proof.
  intros Hmax Harch Hh Hw size_min size_max uncapped im_scale.
  unfold generate_scale, in_scale_set.
  rewrite (bool_decide_eq_true_2 _ Harch).
  destruct (Z.eqb_spec (max_size self) 0) as [|_]; [done|].
  cbn [negb andb shape_2 fst snd]. fold size_min size_max.
  rewrite (py_truediv_float (target_size self) size_min)
    by (subst size_min; lia).
  py_run. fold uncapped. subst im_scale.
  destruct (max_size self <? np_round (binary64 (uncapped * float size_max))).
  - rewrite py_truediv_float by (subst size_max; lia). reflexivity.
  - reflexivity.
Qed.

(** Under either policy [generate_scale] divides by a side length only: on
    an image with non-zero height and width it returns. *)
Lemma generate_scale_Ok_total :
  (0 < dim0 im)%nat → (0 < dim1 im)%nat →
  ∃ sx sy, generate_scale self im = Ok (sx, sy).
Proof.
  intros Hh Hw. unfold generate_scale. cbn [shape_2 fst snd].
  destruct (negb (max_size self =? 0) && in_scale_set (arch self)).
  - rewrite (py_truediv_float (target_size self)) by lia. py_run.
    destruct (max_size self <? _).
    + rewrite py_truediv_float by lia. py_run. eauto.
    + py_run. eauto.
  - rewrite !py_truediv_float by lia. py_run. eauto.
Qed.

Lemma pad_to_canvas_shape (side : Z) (c : nat) (src out : image) :
  pad_to_canvas side c src = Ok out →
  shape_2 out = (Z.to_nat side, Z.to_nat side).
Proof.
  unfold pad_to_canvas. destruct (side <? 0); [discriminate|].
  destruct (broadcastable _ _); [|discriminate].
  intros [= <-]. reflexivity.
Qed.

Lemma Resize_call_shape (info : im_info) (out : image) (info' : im_info) :
  Resize_call self im info = Ok (out, info') →
  resize_shape info' = Some (shape_2 out)
  ∧ (max_size self ≠ 0 →
     shape_2 out = (Z.to_nat (max_size self), Z.to_nat (max_size self))).
Proof.
  unfold Resize_call. intros H.
  py_inv H. destruct a as [sx sy].
  py_inv H. py_inv H.
  injection H as <- <-. split; [reflexivity|].
  intros Hmax. destruct (Z.eqb_spec (max_size self) 0) as [|_]; [done|].
  destruct (image_shape self). cbn [negb andb is_not_None] in *.
  eauto using pad_to_canvas_shape.
Qed.

End ResizeFacts.

(** C6, as the code has it.  For an image with positive height and width
    below 2^53 and a Resize with [0 < target_size < 2^53] and
    [0 < max_size < 2^51] whose architecture is in the scale set,
    [generate_scale] returns on both axes the binary64 quotient
    [target_size / min(H, W)], unless [np.round] of the binary64 product of
    that quotient and [max(H, W)] exceeds [max_size], in which case it
    returns the binary64 quotient [max_size / max(H, W)]; either way the
    longest edge, computed and rounded the same way, stays within
    [max_size].  The bounds keep every integer exactly convertible and the
    two rounding errors of the capped case below one half. *)
Theorem generate_scale_capped (self : Resize) (im : image) :
  (0 < dim0 im)%nat → (0 < dim1 im)%nat →
  Z.of_nat (Nat.max (dim0 im) (dim1 im)) < 2 ^ 53 →
  0 < target_size self < 2 ^ 53 → 0 < max_size self < 2 ^ 51 →
  arch self ∈ scale_set →
  let size_min := Z.of_nat (Nat.min (dim0 im) (dim1 im)) in
  let size_max := Z.of_nat (Nat.max (dim0 im) (dim1 im)) in
  let uncapped := binary64 (float (target_size self) / float size_min) in
  let im_scale :=
    if max_size self <? np_round (binary64 (uncapped * float size_max))
    then binary64 (float (max_size self) / float size_max) else uncapped in
  generate_scale self im = Ok (im_scale, im_scale)
  ∧ np_round (binary64 (im_scale * float size_max)) ≤ max_size self.
Proof.
  intros Hh Hw Hside Ht Hm Harch size_min size_max uncapped im_scale.
  split.
  - apply generate_scale_aspect; [lia|done..].
  - subst im_scale.
    destruct (Z.ltb_spec (max_size self)
                (np_round (binary64 (uncapped * float size_max))))
      as [Hover|Hfit]; [|done].
    apply binary64_cap; [exact Hm | subst size_max; lia].
Qed.

Lemma generate_scale_capped_witness :
  generate_scale capped_rcnn_resize frame_100x256
    = Ok (128 # 256, 128 # 256)%Q
  ∧ np_round (binary64 ((128 # 256) * float 256)) ≤ 128.
Proof.
  refine (generate_scale_capped capped_rcnn_resize frame_100x256
            _ _ _ _ _ _);
    [ simpl; lia | simpl; lia | reflexivity | split; reflexivity
    | split; reflexivity
    | apply (bool_decide_unpack _); vm_compute; exact I ].
Defined.

(** C6 fails as stated, in two ways.  The cap is tested on the rounded
    product: for a target of 7 and a cap of 31 on a 10 x 45 image the exact
    product 7/10 * 45 is 31.5 and rounds to 32, beyond the cap, yet the code
    does not cap, because the binary64 product is 31.499999999999996, which
    rounds to 31; the scale returned is the binary64 number nearest to 7/10,
    not 31/45.  And for a cap of 2^51 or more the capped scale can put the
    longest edge beyond the cap: with [max_size = 3427271084610569] on a
    1 x 2568 image the rounded longest edge is [max_size + 1]. *)
Lemma generate_scale_rounding_counterexample :
  (generate_scale tight_rcnn_resize frame_10x45
     = Ok (seven_tenths, seven_tenths)
   ∧ binary64 (float 7 / float 10) = seven_tenths
   ∧ max_size tight_rcnn_resize < np_round (float 7 / float 10 * float 45)
   ∧ np_round (binary64 (seven_tenths * float 45)) = 31
   ∧ ¬ (seven_tenths == float 31 / float 45)%Q)
  ∧ (∃ s, generate_scale huge_rcnn_resize frame_1x2568 = Ok (s, s)
          ∧ s = binary64 (float huge_cap / float 2568)
          ∧ np_round (binary64 (s * float 2568)) = huge_cap + 1).
Proof.
  split.
  - repeat split; vm_compute; congruence.
  - eexists. split; [vm_compute; reflexivity|].
    split; vm_compute; reflexivity.
Qed.

(** C1, as the code has it.  Whenever [Resize.__call__] returns,
    [im_info['resize_shape']] is the spatial shape of the returned buffer;
    with [max_size != 0] that buffer is the canvas, so the recorded shape is
    [(max_size, max_size)]. *)
Theorem Resize_records_returned_shape (self : Resize) (im : image)
    (info : im_info) (out : image) (info' : im_info) :
  Resize_call self im info = Ok (out, info') →
  resize_shape info' = Some (shape_2 out)
  ∧ (max_size self ≠ 0 →
     resize_shape info'
     = Some (Z.to_nat (max_size self), Z.to_nat (max_size self))).
Proof.
  intros H. destruct (Resize_call_shape _ _ _ _ _ H) as [Hshape Hpad].
  split; [done|]. intros Hmax. rewrite Hshape, (Hpad Hmax). reflexivity.
Qed.

Lemma Resize_records_returned_shape_witness :
  resize_shape (set_resize_shape (128, 128)%nat (set_scale (50 # 100) blank_info))
  = Some (shape_2 (Image 128 128 3))
  ∧ (max_size rcnn_resize ≠ 0 →
     resize_shape (set_resize_shape (128, 128)%nat (set_scale (50 # 100) blank_info))
     = Some (Z.to_nat (max_size rcnn_resize), Z.to_nat (max_size rcnn_resize))).
Proof.
  apply (Resize_records_returned_shape rcnn_resize frame_100x200 blank_info).
  vm_compute. reflexivity.
Defined.

(** C1 fails as stated: a 100 x 200 frame is scaled by 1/2 to 50 x 100 and
    pasted into the 128 x 128 canvas; the recorded shape is the canvas's. *)
Lemma Resize_unpadded_shape_counterexample :
  max_size rcnn_resize ≠ 0
  ∧ generate_scale rcnn_resize frame_100x200 = Ok (50 # 100, 50 # 100)%Q
  ∧ (Z.to_nat (np_round ((50 # 100) * float 100)),
     Z.to_nat (np_round ((50 # 100) * float 200))) = (50, 100)%nat
  ∧ ∃ info',
      Resize_call rcnn_resize frame_100x200 blank_info
        = Ok (Image 128 128 3, info')
      ∧ resize_shape info' = Some (128, 128)%nat
      ∧ resize_shape info' ≠ Some (50, 100)%nat.
Proof.
  split; [discriminate|]. split; [reflexivity|]. split; [reflexivity|].
  eexists. split; [vm_compute; reflexivity|].
  split; [reflexivity | discriminate].
Qed.

(** ** PadStride *)

Section PadStrideFacts.

Lemma py_int_integer (z : Z) : py_int (inject_Z z) = z.
Proof.
  unfold py_int. destruct (Qle_bool 0 (inject_Z z)).
  - apply Qfloor_Z.
  - apply Qceiling_Z.
Qed.

Lemma pad_len_ceiling (n : nat) (stride : Z) :
  pad_len n stride
  = Qceiling (float (Z.of_nat n) / float stride) * stride.
Proof.
  unfold pad_len, np_ceil, float.
  rewrite <- inject_Z_mult. apply py_int_integer.
Qed.

Lemma pad_len_covers (n : nat) (stride : Z) :
  0 < stride → Z.of_nat n ≤ pad_len n stride.
Proof.
  intros Hs. rewrite pad_len_ceiling.
  set (q := (float (Z.of_nat n) / float stride)%Q).
  assert (Hpos : (0 < inject_Z stride)%Q)
    by (change (inject_Z 0 < inject_Z stride)%Q; now rewrite <- Zlt_Qlt).
  assert (Hq : (q * inject_Z stride == inject_Z (Z.of_nat n))%Q).
  { subst q. unfold float. field.
    intros H. rewrite H in Hpos. exact (Qlt_irrefl _ Hpos). }
  rewrite Zle_Qle, inject_Z_mult, <- Hq.
  apply Qmult_le_compat_r; [apply Qle_ceiling | apply Qlt_le_weak, Hpos].
Qed.

Lemma PadStride_call_positive (stride : Z) (im : image) (info : im_info) :
  0 < stride →
  let pad_h := Z.to_nat (pad_len (dim1 im) stride) in
  let pad_w := Z.to_nat (pad_len (dim2 im) stride) in
  PadStride_call {| coarsest_stride := stride |} im info
  = Ok (RetPair (Image (dim0 im) pad_h pad_w)
                (set_resize_shape (pad_h, pad_w) info)).
Proof.
  intros Hs pad_h pad_w. unfold PadStride_call. cbn [coarsest_stride].
  pose proof (pad_len_covers (dim1 im) stride Hs) as Hh.
  pose proof (pad_len_covers (dim2 im) stride Hs) as Hw.
  destruct (Z.eqb_spec stride 0) as [|_]; [lia|].
  destruct (Z.ltb_spec (pad_len (dim1 im) stride) 0); [lia|].
  destruct (Z.ltb_spec (pad_len (dim2 im) stride) 0); [lia|].
  cbn [orb dim1 dim2 broadcastable]. fold pad_h pad_w.
  rewrite (Nat.min_l (dim1 im) pad_h), (Nat.min_l (dim2 im) pad_w)
    by (subst pad_h pad_w; lia).
  rewrite !Nat.eqb_refl. reflexivity.
Qed.

End PadStrideFacts.

(** C10.  With [stride == 0], [PadStride.__call__] returns the bare image,
    which the tuple assignment of [Detector.preprocess] cannot take as an
    (image, metadata) pair; with any positive stride it returns the pair. *)
Theorem PadStride_return_value (im : image) (info : im_info) :
  PadStride_call {| coarsest_stride := 0 |} im info = Ok (RetImage im)
  ∧ (∀ pair, unpack_pair (RetImage im) ≠ Ok pair)
  ∧ (∀ stride, 0 < stride →
       ∃ padded info',
         PadStride_call {| coarsest_stride := stride |} im info
           = Ok (RetPair padded info')
         ∧ unpack_pair (RetPair padded info') = Ok (padded, info')).
Proof.
  split; [reflexivity|]. split.
  - intros pair. unfold unpack_pair. destruct (dim0 im =? 2)%nat; discriminate.
  - intros stride Hs. eexists _, _. split; [|reflexivity].
    apply PadStride_call_positive, Hs.
Qed.

Lemma PadStride_return_value_witness :
  ∃ padded info',
    PadStride_call {| coarsest_stride := 32 |} (Image 3 600 500) blank_info
      = Ok (RetPair padded info')
    ∧ unpack_pair (RetPair padded info') = Ok (padded, info').
Proof.
  refine (proj2 (proj2 (PadStride_return_value (Image 3 600 500) blank_info))
                32 _).
  reflexivity.
Defined.

(** ** create_inputs *)

(** C8, as the code has it.  When the architecture string contains none of
    YOLO, RetinaNet and RCNN (and the metadata shapes are set),
    [create_inputs] raises nothing: it returns the tensor set that holds
    the image alone. *)
Theorem create_inputs_unmatched_arch (im : image) (info : im_info)
    (model_arch : string) (origin resized : nat * nat) :
  origin_shape info = Some origin →
  resize_shape info = Some resized →
  py_in "YOLO" model_arch = false →
  py_in "RetinaNet" model_arch = false →
  py_in "RCNN" model_arch = false →
  create_inputs im info model_arch = Ok {[ "image" := FeedImage im ]}.
Proof.
  intros Ho Hr Hyolo Hretina Hrcnn. unfold create_inputs.
  rewrite Ho, Hr, Hyolo, Hretina, Hrcnn.
  destruct origin, resized. cbn [py_list]. py_run.
  rewrite insert_empty. reflexivity.
Qed.

Lemma create_inputs_unmatched_arch_witness :
  create_inputs (Image 3 300 300) ssd_info "Face"
  = Ok {[ "image" := FeedImage (Image 3 300 300) ]}.
Proof.
  apply (create_inputs_unmatched_arch (Image 3 300 300) ssd_info "Face"
           (480, 640)%nat (300, 300)%nat); reflexivity.
Defined.

(** C8 fails as stated: SSD is a supported architecture that matches none of
    the three substrings, and its inputs are assembled without error. *)
Lemma create_inputs_SSD_counterexample :
  check_model "SSD" = Ok true
  ∧ py_in "YOLO" "SSD" = false
  ∧ py_in "RetinaNet" "SSD" = false
  ∧ py_in "RCNN" "SSD" = false
  ∧ create_inputs (Image 3 300 300) ssd_info "SSD"
    = Ok {[ "image" := FeedImage (Image 3 300 300) ]}.
Proof. repeat split; vm_compute; reflexivity. Qed.

(** ** Detector construction *)

Section Construction.
Context (model : gmap string feed → list ndarray).

(** Construction depends on the engine being loadable, never on the
    entries of the transform recipe. *)
Lemma Detector_init_loaded (config : Config) (use_gpu : bool)
    (run_mode : string) :
  use_python_inference config = true
  ∨ load_predictor run_mode use_gpu = Ok () →
  Detector_init model config use_gpu run_mode
  = Ok {| config := config;
          preprocess_ops :=
            build_op (cfg_arch config) <$> preprocess_infos config;
          engine := model |}.
Proof.
  unfold Detector_init. intros [-> | ->]; [reflexivity|].
  destruct (use_python_inference config); reflexivity.
Qed.

End Construction.

Lemma Resize_call_capped_pil (self : Resize) (im : image) (info : im_info) :
  max_size self ≠ 0 → use_cv2 self = false →
  (0 < dim0 im)%nat → (0 < dim1 im)%nat →
  Resize_call self im info = Raise TypeError.
Proof.
  intros Hmax Hcv Hh Hw. unfold Resize_call.
  destruct (generate_scale_Ok_total self im Hh Hw) as (sx & sy & ->).
  py_run. rewrite Hcv.
  destruct (Z.eqb_spec (max_size self) 0) as [|_]; [done|]. reflexivity.
Qed.

(** C9, as the code has it.  A Resize entry with [max_size != 0] and
    [use_cv2] false passes [Detector.__init__] unchecked; the TypeError is
    raised by [Resize.__call__], when the operator meets its first image. *)
Theorem capped_pil_Resize_raises_at_call
    (model : gmap string feed → list ndarray) (config : Config)
    (use_gpu : bool) (run_mode : string)
    (target_size max_size : Z) (image_shape : option (list Z))
    (interp : option Z) (im : image) (info : im_info) :
  max_size ≠ 0 →
  (0 < dim0 im)%nat → (0 < dim1 im)%nat →
  ResizeInfo target_size max_size (Some false) image_shape interp
    ∈ preprocess_infos config →
  use_python_inference config = true
  ∨ load_predictor run_mode use_gpu = Ok () →
  let op := Resize_init (cfg_arch config) target_size max_size false
                        image_shape (default 1 interp) in
  (∃ det, Detector_init model config use_gpu run_mode = Ok det
          ∧ OpResize op ∈ preprocess_ops det)
  ∧ Resize_call op im info = Raise TypeError.
Proof.
  intros Hmax Hh Hw Hin Hload op. split.
  - eexists. split; [apply Detector_init_loaded, Hload|].
    cbn [preprocess_ops].
    apply (list_elem_of_fmap_2 (build_op (cfg_arch config))) in Hin.
    exact Hin.
  - apply Resize_call_capped_pil; done.
Qed.

Lemma capped_pil_Resize_raises_at_call_witness :
  (∃ det,
     Detector_init two_box_model (yolo_config false [capped_pil_resize_info])
                   false "fluid" = Ok det
     ∧ OpResize (Resize_init "YOLO" 608 608 false None 2) ∈ preprocess_ops det)
  ∧ Resize_call (Resize_init "YOLO" 608 608 false None 2) frame_304 blank_info
    = Raise TypeError.
Proof.
  refine (capped_pil_Resize_raises_at_call two_box_model
            (yolo_config false [capped_pil_resize_info]) false "fluid"
            608 608 None (Some 2) frame_304 blank_info _ _ _ _ _).
  - discriminate.
  - simpl; lia.
  - simpl; lia.
  - apply list_elem_of_here.
  - right. reflexivity.
Defined.

(** C9 fails as stated: construction succeeds and the first frame fails. *)
Lemma capped_pil_Resize_accepted_counterexample :
  ∃ det,
    Detector_init two_box_model (yolo_config false [capped_pil_resize_info])
                  false "fluid" = Ok det
    ∧ preprocess det frame_304 = Raise TypeError.
Proof. eexists. split; [reflexivity | vm_compute; reflexivity]. Qed.

(** ** Output disambiguation *)

Section Disambiguation.

Lemma disambiguate_snoc (outs : list ndarray) (o : ndarray) (st : locals) :
  disambiguate (outs ++ [o]) st = assign_output (disambiguate outs st) o.
Proof. apply foldl_snoc. Qed.

Lemma disambiguate_views (outs : list ndarray) :
  let st := disambiguate outs unassigned in
  boxes st = last (omap as_boxes outs)
  ∧ scores st = last (omap as_scores outs)
  ∧ classes st = last (omap as_classes outs).
Proof.
  induction outs as [|o outs IH] using rev_ind; [done|].
  cbv zeta in *. destruct IH as (IHb & IHs & IHc).
  rewrite disambiguate_snoc, !omap_app, !last_app.
  destruct o as [v|m]; cbn.
  - destruct (decide (vdtype v = float32)); cbn; auto.
  - auto.
Qed.

Lemma disambiguate_signature (outs : list ndarray) (m : matrix)
    (s c : vector) :
  outs ≡ₚ [Mat m; Vec s; Vec c] →
  vdtype s = float32 → vdtype c ≠ float32 →
  disambiguate outs unassigned
  = {| boxes := Some m; scores := Some s; classes := Some c |}.
Proof.
  intros Hperm Hs Hc.
  destruct (disambiguate_views outs) as (Hb & Hsc & Hcl).
  assert (Eb : omap as_boxes outs = [m]).
  { apply Permutation_singleton_r. rewrite Hperm. done. }
  assert (Es : omap as_scores outs = [s]).
  { apply Permutation_singleton_r. rewrite Hperm. cbn.
    rewrite (decide_True _ _ Hs), (decide_False _ _ Hc). done. }
  assert (Ec : omap as_classes outs = [c]).
  { apply Permutation_singleton_r. rewrite Hperm. cbn.
    rewrite (decide_True _ _ Hs), (decide_False _ _ Hc). done. }
  rewrite Eb in Hb. rewrite Es in Hsc. rewrite Ec in Hcl.
  destruct (disambiguate outs unassigned) as [b sc cl].
  cbn in Hb, Hsc, Hcl. congruence.
Qed.

End Disambiguation.

(** C4, as the code has it.  Of three raw outputs the loop binds [boxes] to
    the last rank-2 tensor, [scores] to the last other tensor of dtype
    float32 and [classes] to the last remaining one, leaving a name unassigned
    when nothing matches; when the three are, in any order, one rank-2
    tensor, one float32 vector and one vector of another dtype, these are the
    boxes, scores and classes. *)
Theorem disambiguate_last_match (o0 o1 o2 : ndarray) :
  let outs := [o0; o1; o2] in
  let st := disambiguate outs unassigned in
  boxes st = last (omap as_boxes outs)
  ∧ scores st = last (omap as_scores outs)
  ∧ classes st = last (omap as_classes outs)
  ∧ (∀ m s c,
       outs ≡ₚ [Mat m; Vec s; Vec c] →
       vdtype s = float32 → vdtype c ≠ float32 →
       st = {| boxes := Some m; scores := Some s; classes := Some c |}).
Proof.
  intros outs st.
  destruct (disambiguate_views outs) as (Hb & Hs & Hc).
  repeat split; [done..|]. apply disambiguate_signature.
Qed.

Lemma disambiguate_last_match_witness :
  disambiguate [Vec two_scores; Mat two_boxes; Vec two_classes] unassigned
  = {| boxes := Some two_boxes; scores := Some two_scores;
       classes := Some two_classes |}.
Proof.
  refine (proj2 (proj2 (proj2
            (disambiguate_last_match (Vec two_scores) (Mat two_boxes)
                                     (Vec two_classes))))
            two_boxes two_scores two_classes _ _ _).
  - apply Permutation_swap.
  - reflexivity.
  - discriminate.
Defined.

(** C4 fails as stated: with two rank-2 tensors and nothing for [classes]
    the loop keeps the later tensor silently, and [predict] still returns. *)
Lemma disambiguate_ambiguous_counterexample :
  disambiguate [Mat two_boxes; Mat other_boxes; Vec (Vector float32 [-1]%Q)]
               unassigned
  = {| boxes := Some other_boxes; scores := Some (Vector float32 [-1]%Q);
       classes := None |}
  ∧ predict (yolo_detector false ambiguous_model) frame_304 (1 # 2) 10 10
    = Ok no_object_result.
Proof. split; [reflexivity | vm_compute; reflexivity]. Qed.

(** ** Postprocessing *)

Section Filtering.
Context (keep : Q → bool).

Lemma mask_select_kept (rows : list (list Q)) (scores classes : list Q) :
  length rows = length scores → length classes = length scores →
  mask_select (keep <$> scores) rows = (kept_rows keep rows scores classes).*1.*1
  ∧ mask_select (keep <$> scores) scores
    = (kept_rows keep rows scores classes).*1.*2
  ∧ mask_select (keep <$> scores) classes
    = (kept_rows keep rows scores classes).*2.
Proof.
  revert rows classes.
  induction scores as [|s scores IH]; intros [|row rows] [|c classes];
    try discriminate; [done|].
  intros [= Hr] [= Hc]. destruct (IH rows classes Hr Hc) as (IHr & IHs & IHc).
  unfold kept_rows in *. cbn.
  destruct (keep s); cbn; repeat split; congruence.
Qed.

Lemma kept_rows_wide (rows : list (list Q)) (scores classes : list Q) :
  Forall (fun box => (4 ≤ length box)%nat) rows →
  Forall (fun box => (4 ≤ length box)%nat)
         (kept_rows keep rows scores classes).*1.*1.
Proof.
  intros Hwide. rewrite Forall_forall in Hwide. apply Forall_forall.
  intros box Hbox.
  apply list_elem_of_fmap in Hbox as ([b s] & -> & Hbox).
  apply list_elem_of_fmap in Hbox as ([[b' s'] c] & [= <- <-] & Hbox).
  apply list_elem_of_In, filter_In in Hbox as [Hbox _].
  apply list_elem_of_In, elem_of_zip_l, elem_of_zip_l in Hbox.
  cbn. auto.
Qed.

End Filtering.

Section Printing.

Lemma getitem_lt {A : Type} (xs : list A) (i : nat) :
  (i < length xs)%nat → ∃ x, getitem xs i = Ok x.
Proof.
  intros Hi. unfold getitem.
  destruct (lookup_lt_is_Some_2 xs i Hi) as [x ->]. eauto.
Qed.

Lemma getitem_Ok_lt {A : Type} (xs : list A) (i : nat) (x : A) :
  getitem xs i = Ok x → (i < length xs)%nat.
Proof.
  unfold getitem. destruct (xs !! i) eqn:E; [|discriminate].
  intros _. eapply lookup_lt_Some, E.
Qed.

Lemma print_boxes_Ok (i : nat) (rows : list (list Q)) (scores classes : list Q) :
  Forall (fun box => (4 ≤ length box)%nat) rows →
  (i + length rows ≤ length scores)%nat →
  (i + length rows ≤ length classes)%nat →
  print_boxes i rows scores classes = Ok ().
Proof.
  revert i. induction rows as [|box rows IH]; intros i Hwide Hs Hc; [done|].
  apply Forall_cons in Hwide as [Hbox Hwide]. cbn in Hs, Hc.
  cbn [print_boxes].
  destruct (getitem_lt classes i) as [? ->]; [lia|].
  destruct (getitem_lt scores i) as [? ->]; [lia|].
  destruct (getitem_lt box 0) as [? ->]; [lia|].
  destruct (getitem_lt box 1) as [? ->]; [lia|].
  destruct (getitem_lt box 2) as [? ->]; [lia|].
  destruct (getitem_lt box 3) as [? ->]; [lia|].
  py_run. apply IH; [done|lia..].
Qed.

Lemma print_boxes_Ok_inv (i : nat) (rows : list (list Q))
    (scores classes : list Q) :
  print_boxes i rows scores classes = Ok () →
  rows = [] ∨ ((i + length rows ≤ length scores)%nat
               ∧ (i + length rows ≤ length classes)%nat).
Proof.
  revert i. induction rows as [|box rows IH]; intros i H; [by left|].
  right. cbn [print_boxes] in H.
  py_inv H. apply getitem_Ok_lt in Hstep.
  py_inv H. apply getitem_Ok_lt in Hstep0.
  do 4 py_inv H.
  destruct (IH _ H) as [-> | [Hs Hc]]; cbn; lia.
Qed.

End Printing.

Section MaskLength.

Lemma length_mask_select {A : Type} (mask : list bool) (xs : list A) :
  length mask = length xs →
  length (mask_select mask xs) = length (List.filter id mask).
Proof.
  revert xs. induction mask as [|keep mask IH]; intros [|x xs];
    try discriminate; [done|].
  intros [= H]. cbn. destruct keep; cbn; auto.
Qed.

Lemma bool_index_Ok {A : Type} (mask : list bool) (xs ys : list A) :
  bool_index mask xs = Ok ys →
  length mask = length xs ∧ ys = mask_select mask xs.
Proof.
  unfold bool_index. destruct (Nat.eqb_spec (length mask) (length xs));
    [|discriminate].
  intros [= <-]. done.
Qed.

Lemma bool_index_same_length {A : Type} (mask : list bool) (xs : list A) :
  length mask = length xs → bool_index mask xs = Ok (mask_select mask xs).
Proof. intros H. unfold bool_index. now rewrite H, Nat.eqb_refl. Qed.

End MaskLength.

Section Comparison.

Lemma np_greater_float32 (s threshold : Q) :
  np_greater float32 s threshold = true ↔ (binary32 threshold < s)%Q.
Proof. apply Qltb_lt. Qed.

(** A float32 score that passes the rounded threshold exceeds the threshold
    itself: no float32 number lies strictly between the two. *)
Lemma binary32_exceeds (s threshold : Q) :
  (0 < threshold)%Q → (binary32 s == s)%Q →
  (binary32 threshold < s)%Q → (threshold < s)%Q.
Proof.
  intros Ht Hs Hlt. apply Qnot_le_lt. intros Hle.
  apply (Qlt_irrefl s). eapply Qle_lt_trans; [|exact Hlt].
  destruct (Qlt_le_dec 0 s) as [Hpos | Hneg].
  - rewrite <- Hs at 1. apply round_binary_mono; [lia | exact Hpos | exact Hle].
  - eapply Qle_trans; [exact Hneg|].
    apply round_binary_nonneg, Qlt_le_weak, Ht.
Qed.

(** Raising the threshold keeps fewer entries, in every dtype. *)
Lemma np_greater_weaken (dt : dtype) (lo hi s : Q) :
  (0 < lo)%Q → (lo <= hi)%Q →
  np_greater dt s hi = true → np_greater dt s lo = true.
Proof.
  intros Hlo Hle. destruct dt; cbn [np_greater]; rewrite !Qltb_lt; intros H.
  - eapply Qle_lt_trans; [|exact H].
    apply round_binary_mono; [lia | exact Hlo | exact Hle].
  - lra.
  - lra.
  - lra.
Qed.

End Comparison.

(** C5, as the code has it.  For boxes (at least four columns wide), scores
    and classes of a common length and a positive threshold, [postprocess]
    returns the three arrays cut down to the same rows, in order: a row is
    kept exactly when numpy finds its score greater than the threshold.  For
    float32 scores that is when the score exceeds the threshold rounded to
    float32, and every kept row then has a score strictly greater than the
    threshold itself; for float64 scores the threshold is compared as it
    is. *)
Theorem postprocess_threshold (bx : matrix) (sc cl : vector)
    (info : im_info) (threshold : Q) :
  length (mrows bx) = length (vdata sc) →
  length (vdata cl) = length (vdata sc) →
  Forall (fun box => (4 ≤ length box)%nat) (mrows bx) →
  (0 < threshold)%Q →
  let rows := zip (zip (mrows bx) (vdata sc)) (vdata cl) in
  let kept := kept_rows (fun s => np_greater (vdtype sc) s threshold)
                        (mrows bx) (vdata sc) (vdata cl) in
  postprocess bx sc cl info threshold
  = Ok (<["classes" := Vec (Vector (vdtype cl) kept.*2)]>
          (<["scores" := Vec (Vector (vdtype sc) kept.*1.*2)]>
             (<["boxes" := Mat (Matrix (mdtype bx) kept.*1.*1)]> ∅)))
  ∧ (∀ r, r ∈ kept
          ↔ r ∈ rows ∧ np_greater (vdtype sc) r.1.2 threshold = true)
  ∧ (vdtype sc = float32 →
     (∀ r, r ∈ kept ↔ r ∈ rows ∧ (binary32 threshold < r.1.2)%Q)
     ∧ (Forall (fun s => (binary32 s == s)%Q) (vdata sc) →
        ∀ r, r ∈ kept → (threshold < r.1.2)%Q))
  ∧ (vdtype sc = float64 →
     ∀ r, r ∈ kept ↔ r ∈ rows ∧ (threshold < r.1.2)%Q).
Proof.
  intros Hrows Hcl Hwide Ht rows kept.
  assert (Hkept : ∀ r, r ∈ kept
            ↔ r ∈ rows ∧ np_greater (vdtype sc) r.1.2 threshold = true).
  { intros r. subst kept rows. unfold kept_rows.
    rewrite list_elem_of_In, filter_In, <- list_elem_of_In. done. }
  split; [|split; [exact Hkept|split]].
  - destruct (mask_select_kept
                (fun s => np_greater (vdtype sc) s threshold) _ _ _ Hrows Hcl)
      as (Eb & Es & Ec).
    unfold postprocess. rewrite (proj2 (Qltb_lt 0 threshold) Ht).
    rewrite !bool_index_same_length by (rewrite length_fmap; congruence).
    py_run. cbn [mrows vdata mdtype vdtype].
    rewrite Eb, Es, Ec.
    change (kept_rows _ (mrows bx) (vdata sc) (vdata cl)) with kept.
    rewrite print_boxes_Ok; [reflexivity | | |].
    + apply kept_rows_wide, Hwide.
    + rewrite !length_fmap. cbn. lia.
    + rewrite !length_fmap. cbn. lia.
  - intros Hdt.
    assert (H32 : ∀ r, r ∈ kept
              ↔ r ∈ rows ∧ (binary32 threshold < r.1.2)%Q).
    { intros r. rewrite Hkept, Hdt, np_greater_float32. done. }
    split; [exact H32|].
    intros Hrep [[b s] c] Hr. apply H32 in Hr as [Hin Hlt].
    apply binary32_exceeds; [exact Ht | | exact Hlt].
    rewrite Forall_forall in Hrep. apply Hrep.
    subst rows. apply elem_of_zip_l, elem_of_zip_r in Hin. exact Hin.
  - intros Hdt r. rewrite Hkept, Hdt. cbn [np_greater]. rewrite Qltb_lt. done.
Qed.

Lemma postprocess_threshold_witness :
  postprocess two_boxes two_scores two_classes blank_info (1 # 2)
  = Ok (<["classes" := Vec (Vector int32 [0%Q])]>
          (<["scores" := Vec (Vector float32 [3 # 4]%Q)]>
             (<["boxes" := Mat (Matrix float32 [[10; 20; 30; 40]]%Q)]> ∅)))
  ∧ (∀ r, r ∈ [([10; 20; 30; 40], 3 # 4, 0)]%Q
          ↔ r ∈ [([10; 20; 30; 40], 3 # 4, 0); ([1; 2; 3; 4], 1 # 4, 2)]%Q
            ∧ (binary32 (1 # 2) < r.1.2)%Q).
Proof.
  pose proof (postprocess_threshold two_boxes two_scores two_classes
                blank_info (1 # 2) eq_refl eq_refl
                ltac:(repeat constructor) eq_refl) as (H & _ & H32 & _).
  split; [exact H | exact (proj1 (H32 eq_refl))].
Defined.

(** C5 fails as stated: with the threshold 0.1 a float32 score of
    0.100000001490116, which is greater, is dropped: numpy rounds the
    threshold to float32, where it becomes that very score. *)
Lemma postprocess_rounded_threshold_counterexample :
  (tenth < tenth_f32)%Q
  ∧ binary32 tenth = tenth_f32
  ∧ postprocess (Matrix float32 [[10; 20; 30; 40]]%Q)
                (Vector float32 [tenth_f32]) (Vector int32 [0%Q])
                blank_info tenth
    = Ok (<["classes" := Vec (Vector int32 [])]>
            (<["scores" := Vec (Vector float32 [])]>
               (<["boxes" := Mat (Matrix float32 [])]> ∅))).
Proof. repeat split; vm_compute; reflexivity. Qed.

(** ** predict *)

Section Predict.
Context (self : Detector) (image : image) (threshold : Q)
        (warmup repeats : Z).

Lemma run_executor_unassigned (inputs : gmap string feed) (st : locals) :
  run_executor self inputs warmup repeats = Ok st → st = unassigned.
Proof.
  unfold run_executor. intros H. do 3 py_inv H. congruence.
Qed.

Lemma run_predictor_Ok (inputs : gmap string feed) (st : locals) :
  run_predictor self inputs warmup repeats = Ok st →
  st = unassigned
  ∨ ∃ outs, fetch3 (engine self inputs) = Ok outs
            ∧ st = disambiguate outs unassigned.
Proof.
  unfold run_predictor. intros H. do 3 py_inv H. injection H as <-.
  destruct (0 <? repeats).
  - right. py_inv Hstep0. injection Hstep0 as <-. eauto.
  - left. congruence.
Qed.

Lemma finish_predict_no_object (st : locals) (info : im_info)
    (dt : dtype) (first : Q) (others : list Q) :
  scores st = Some (Vector dt (first :: others)) →
  (first < 0)%Q →
  finish_predict st info threshold = Ok no_object_result.
Proof.
  intros Hsc Hneg. unfold finish_predict. rewrite Hsc. cbn.
  now rewrite (proj2 (Qltb_lt first 0) Hneg).
Qed.

Lemma predict_Ok (r : gmap string ndarray) :
  predict self image threshold warmup repeats = Ok r →
  ∃ inputs info st,
    preprocess self image = Ok (inputs, info)
    ∧ (if use_python_inference (config self)
       then run_executor self inputs warmup repeats
       else run_predictor self inputs warmup repeats) = Ok st
    ∧ finish_predict st info threshold = Ok r.
Proof.
  unfold predict. intros H. py_inv H. destruct a as [inputs info].
  py_inv H. eauto 6.
Qed.

Lemma predict_python_inference_never_Ok (r : gmap string ndarray) :
  use_python_inference (config self) = true →
  predict self image threshold warmup repeats ≠ Ok r.
Proof.
  intros Hpy H. apply predict_Ok in H as (inputs & info & st & _ & Hrun & H).
  rewrite Hpy in Hrun. apply run_executor_unassigned in Hrun as ->.
  discriminate.
Qed.

End Predict.

(** C3.  On the predictor path, when the tensor bound to [scores] starts
    with a negative entry, [predict] returns the no-object result, whatever
    the threshold, the boxes, the classes and the other scores are. *)
Theorem predict_negative_first_score (self : Detector) (image : image) (threshold : Q)
    (warmup repeats : Z) (inputs : gmap string feed) (info : im_info)
    (o0 o1 o2 : ndarray) (rest : list ndarray)
    (dt : dtype) (first : Q) (others : list Q) :
  use_python_inference (config self) = false →
  preprocess self image = Ok (inputs, info) →
  0 < repeats →
  engine self inputs = o0 :: o1 :: o2 :: rest →
  scores (disambiguate [o0; o1; o2] unassigned)
    = Some (Vector dt (first :: others)) →
  (first < 0)%Q →
  predict self image threshold warmup repeats = Ok no_object_result.
Proof.
  intros Hpy Hpre Hrep Hout Hsc Hneg.
  unfold predict. rewrite Hpre, Hpy. py_run.
  unfold run_predictor. rewrite Hout. cbn [fetch3].
  destruct (Z.ltb_spec 0 warmup); destruct (Z.ltb_spec 0 repeats); try lia;
    destruct (Z.eqb_spec repeats 0); try lia; py_run;
    eapply finish_predict_no_object; eauto.
Qed.

Lemma predict_negative_first_score_witness :
  predict (yolo_detector false no_object_model) frame_304 (1 # 2) 10 10
  = Ok no_object_result.
Proof.
  eapply (predict_negative_first_score (yolo_detector false no_object_model) frame_304
            (1 # 2) 10 10 _ _ _ _ _ [] float32 (-1) [3 # 4]%Q).
  - reflexivity.
  - vm_compute. reflexivity.
  - reflexivity.
  - reflexivity.
  - reflexivity.
  - reflexivity.
Defined.

Section ResultShape.

Lemma postprocess_Ok (bx : matrix) (sc cl : vector) (info : im_info)
    (threshold : Q) (r : gmap string ndarray) :
  postprocess bx sc cl info threshold = Ok r →
  ∃ bx' sc' cl',
    r = <["classes" := Vec cl']>
          (<["scores" := Vec sc']> (<["boxes" := Mat bx']> ∅))
    ∧ (length (mrows bx') ≤ length (vdata sc'))%nat
    ∧ (length (mrows bx') ≤ length (vdata cl'))%nat
    ∧ ((0 < threshold)%Q →
       length (mrows bx') = length (vdata sc')
       ∧ length (vdata cl') = length (vdata sc'))
    ∧ (¬ (0 < threshold)%Q → bx' = bx ∧ sc' = sc ∧ cl' = cl).
Proof.
  unfold postprocess. intros H.
  py_inv H. destruct a as [[bx' sc'] cl'].
  py_inv H. destruct a. injection H as <-.
  exists bx', sc', cl'. split; [reflexivity|].
  assert (Hle : (length (mrows bx') ≤ length (vdata sc'))%nat
                ∧ (length (mrows bx') ≤ length (vdata cl'))%nat).
  { destruct (print_boxes_Ok_inv _ _ _ _ Hstep0) as [-> | Hlen];
      cbn; lia. }
  destruct Hle as [Hs Hc]. do 2 (split; [done|]).
  destruct (Qltb 0 threshold) eqn:Ht.
  - apply Qltb_lt in Ht. split; [intros _ | done].
    py_inv Hstep. py_inv Hstep. injection Hstep as <- <- <-.
    apply bool_index_Ok in Hstep1 as [Hl1 ->].
    apply bool_index_Ok in Hstep2 as [Hl2 ->].
    cbn [mrows vdata].
    rewrite !length_mask_select by (done || now rewrite length_fmap).
    done.
  - injection Hstep as <- <- <-. split; [|done].
    intros Hpos. apply Qltb_lt in Hpos. congruence.
Qed.

Lemma finish_predict_Ok (st : locals) (info : im_info) (threshold : Q)
    (r : gmap string ndarray) :
  finish_predict st info threshold = Ok r →
  r = no_object_result
  ∨ ∃ bx sc cl,
      st = {| boxes := Some bx; scores := Some sc; classes := Some cl |}
      ∧ postprocess bx sc cl info threshold = Ok r.
Proof.
  unfold finish_predict. destruct st as [[bx|] [sc|] [cl|]]; cbn;
    try discriminate;
    destruct (getitem (vdata sc) 0) as [first|]; cbn; try discriminate;
    destruct (Qltb first 0); try discriminate;
    intros H; try (injection H as <-; by left).
  right. eauto.
Qed.

End ResultShape.

(** C7, as the code has it.  A result returned by [predict] is either the
    no-object result, which holds an empty [boxes] array and neither [scores]
    nor [classes], or it holds all three arrays with no more boxes than
    scores or classes; the three lengths agree when the threshold is
    positive, and otherwise the arrays are the raw outputs themselves. *)
Theorem predict_result_arrays (self : Detector) (image : image)
    (threshold : Q) (warmup repeats : Z) (r : gmap string ndarray) :
  predict self image threshold warmup repeats = Ok r →
  (r !! "boxes" = Some (Vec (Vector float64 []))
   ∧ r !! "scores" = None ∧ r !! "classes" = None)
  ∨ (∃ bx sc cl,
       r !! "boxes" = Some (Mat bx)
       ∧ r !! "scores" = Some (Vec sc)
       ∧ r !! "classes" = Some (Vec cl)
       ∧ (len (Mat bx) ≤ len (Vec sc))%nat
       ∧ (len (Mat bx) ≤ len (Vec cl))%nat
       ∧ ((0 < threshold)%Q →
          len (Mat bx) = len (Vec sc) ∧ len (Vec cl) = len (Vec sc))
       ∧ (¬ (0 < threshold)%Q →
          ∃ inputs info outs,
            preprocess self image = Ok (inputs, info)
            ∧ fetch3 (engine self inputs) = Ok outs
            ∧ disambiguate outs unassigned
              = {| boxes := Some bx; scores := Some sc;
                   classes := Some cl |})).
Proof.
  intros H.
  apply predict_Ok in H as (inputs & info & st & Hpre & Hrun & H).
  apply finish_predict_Ok in H as [-> | (bx & sc & cl & -> & H)].
  { left. done. }
  right. apply postprocess_Ok in H
    as (bx' & sc' & cl' & -> & Hs & Hc & Hpos & Hraw).
  exists bx', sc', cl'. do 3 (split; [done|]).
  cbn [len]. do 3 (split; [done|]).
  intros Hneg. destruct (Hraw Hneg) as (-> & -> & ->).
  destruct (use_python_inference (config self)).
  - apply run_executor_unassigned in Hrun. discriminate.
  - apply run_predictor_Ok in Hrun as [Hrun | (outs & Hout & Hrun)];
      [discriminate | eauto 6].
Qed.

Lemma predict_result_arrays_witness :
  (no_object_result !! "boxes" = Some (Vec (Vector float64 []))
   ∧ no_object_result !! "scores" = None
   ∧ no_object_result !! "classes" = None)
  ∨ (∃ bx sc cl,
       no_object_result !! "boxes" = Some (Mat bx)
       ∧ no_object_result !! "scores" = Some (Vec sc)
       ∧ no_object_result !! "classes" = Some (Vec cl)
       ∧ (len (Mat bx) ≤ len (Vec sc))%nat
       ∧ (len (Mat bx) ≤ len (Vec cl))%nat
       ∧ ((0 < 1 # 2)%Q →
          len (Mat bx) = len (Vec sc) ∧ len (Vec cl) = len (Vec sc))
       ∧ (¬ (0 < 1 # 2)%Q →
          ∃ inputs info outs,
            preprocess (yolo_detector false no_object_model) frame_304
              = Ok (inputs, info)
            ∧ fetch3 (engine (yolo_detector false no_object_model) inputs)
              = Ok outs
            ∧ disambiguate outs unassigned
              = {| boxes := Some bx; scores := Some sc;
                   classes := Some cl |})).
Proof.
  apply (predict_result_arrays (yolo_detector false no_object_model)
           frame_304 (1 # 2) 10 10 no_object_result).
  vm_compute. reflexivity.
Defined.

(** C7 fails as stated: the result of the no-object path has no [scores]
    and no [classes] entry. *)
Lemma no_object_result_keys_counterexample :
  predict (yolo_detector false no_object_model) frame_304 (1 # 2) 10 10
    = Ok no_object_result
  ∧ no_object_result !! "boxes" = Some (Vec (Vector float64 []))
  ∧ no_object_result !! "scores" = None
  ∧ no_object_result !! "classes" = None.
Proof. repeat split; vm_compute; reflexivity. Qed.

(** C2, refuted by the code.  With [use_python_inference] set, [predict]
    never returns a result: the executor branch stores its outputs in
    [np_boxes], [np_boxes2], [np_boxes3] and leaves [scores] unassigned, so
    once preprocessing and the timed runs succeed the no-object test raises
    UnboundLocalError. *)
Theorem predict_python_inference_raises (self : Detector) (image : image)
    (threshold : Q) (warmup repeats : Z) :
  use_python_inference (config self) = true →
  (∀ r, predict self image threshold warmup repeats ≠ Ok r)
  ∧ (∀ inputs info o0 o1 o2 rest,
       preprocess self image = Ok (inputs, info) →
       0 < repeats →
       engine self inputs = o0 :: o1 :: o2 :: rest →
       predict self image threshold warmup repeats
       = Raise (UnboundLocalError "scores")).
Proof.
  intros Hpy. split.
  - intros r. apply predict_python_inference_never_Ok, Hpy.
  - intros inputs info o0 o1 o2 rest Hpre Hrep Hout.
    unfold predict. rewrite Hpre, Hpy. py_run.
    unfold run_executor. rewrite Hout.
    destruct (Z.ltb_spec 0 repeats); [|lia].
    destruct (Z.eqb_spec repeats 0); [lia|].
    rewrite orb_true_r. reflexivity.
Qed.

Lemma predict_python_inference_raises_witness :
  predict (yolo_detector true two_box_model) frame_304 (1 # 2) 10 10
  = Raise (UnboundLocalError "scores").
Proof.
  eapply (proj2 (predict_python_inference_raises
                   (yolo_detector true two_box_model) frame_304 (1 # 2) 10 10
                   eq_refl)).
  - vm_compute. reflexivity.
  - reflexivity.
  - reflexivity.
Defined.

(** The same frame, model and threshold on the predictor path. *)
Lemma predict_predictor_path_returns :
  predict (yolo_detector false two_box_model) frame_304 (1 # 2) 10 10
  = Ok (<["classes" := Vec (Vector int32 [0%Q])]>
          (<["scores" := Vec (Vector float32 [3 # 4]%Q)]>
             (<["boxes" := Mat (Matrix float32 [[10; 20; 30; 40]]%Q)]> ∅))).
Proof. vm_compute. reflexivity. Qed.

(** * Further properties of the pipeline *)

(** ** Resize, direct policy *)

Lemma Resize_call_direct (self : Resize) (im : image) (info : im_info) :
  max_size self = 0 → use_cv2 self = true →
  0 < target_size self →
  (0 < dim0 im)%nat → (0 < dim1 im)%nat →
  let side := Z.to_nat (target_size self) in
  let scale_x := (float (target_size self) / float (Z.of_nat (dim1 im)))%Q in
  Resize_call self im info
  = Ok (Image side side (dim2 im),
        set_resize_shape (side, side)
          (if in_scale_set (arch self) then set_scale scale_x info else info)).
Proof.
  intros Hmax Hcv Ht Hh Hw side scale_x.
  unfold Resize_call, generate_scale. rewrite Hmax, Hcv.
  cbn [Z.eqb negb andb shape_2 fst snd].
  rewrite !py_truediv_float by lia. py_run.
  unfold cv2_resize.
  rewrite !(proj2 (Qltb_lt 0 _)) by (apply float_div_pos; lia).
  cbn [andb]. rewrite !cvRound_rescale by lia.
  destruct (Z.ltb_spec 0 (target_size self)); [|lia].
  cbn [andb]. py_run. reflexivity.
Qed.



(** ** PadStride, continued *)

Section PadStrideMultiples.

Lemma pad_len_tight (n : nat) (stride : Z) :
  0 < stride → pad_len n stride < Z.of_nat n + stride.
Proof.
  intros Hs. rewrite pad_len_ceiling.
  set (q := (float (Z.of_nat n) / float stride)%Q).
  pose proof (float_pos stride Hs) as Hpos. unfold float in Hpos.
  assert (Hq : (q * inject_Z stride == inject_Z (Z.of_nat n))%Q).
  { subst q. unfold float. field.
    intros H. rewrite H in Hpos. exact (Qlt_irrefl _ Hpos). }
  assert (Hlt : (inject_Z (Qceiling q - 1) * inject_Z stride
                 < inject_Z (Z.of_nat n))%Q).
  { rewrite <- Hq. apply Qmult_lt_compat_r; [exact Hpos | apply Qceiling_lt]. }
  rewrite <- inject_Z_mult, <- Zlt_Qlt in Hlt. lia.
Qed.

Lemma pad_len_multiple (n : nat) (stride : Z) :
  (stride | pad_len n stride).
Proof. rewrite pad_len_ceiling. apply Z.divide_factor_r. Qed.

End PadStrideMultiples.

(** X3.  With a positive stride [PadStride.__call__] returns the buffer
    padded, on its two spatial axes, to the least multiple of the stride that
    holds each side, so less than one stride is added; it keeps the channel
    axis and records the padded sides as [resize_shape]. *)
Theorem PadStride_pads_to_multiple (stride : Z) (im : image) (info : im_info) :
  0 < stride →
  ∃ pad_h pad_w : nat,
    PadStride_call {| coarsest_stride := stride |} im info
    = Ok (RetPair (Image (dim0 im) pad_h pad_w)
                  (set_resize_shape (pad_h, pad_w) info))
    ∧ (stride | Z.of_nat pad_h) ∧ (stride | Z.of_nat pad_w)
    ∧ Z.of_nat (dim1 im) ≤ Z.of_nat pad_h < Z.of_nat (dim1 im) + stride
    ∧ Z.of_nat (dim2 im) ≤ Z.of_nat pad_w < Z.of_nat (dim2 im) + stride.
Proof.
  intros Hs.
  pose proof (pad_len_covers (dim1 im) stride Hs).
  pose proof (pad_len_covers (dim2 im) stride Hs).
  pose proof (pad_len_tight (dim1 im) stride Hs).
  pose proof (pad_len_tight (dim2 im) stride Hs).
  exists (Z.to_nat (pad_len (dim1 im) stride)),
         (Z.to_nat (pad_len (dim2 im) stride)).
  split; [apply PadStride_call_positive, Hs|].
  rewrite !Z2Nat.id by lia.
  repeat split; try lia; apply pad_len_multiple.
Qed.

Lemma PadStride_pads_to_multiple_witness :
  ∃ pad_h pad_w : nat,
    PadStride_call {| coarsest_stride := 32 |} (Image 3 600 500) blank_info
    = Ok (RetPair (Image 3 pad_h pad_w)
                  (set_resize_shape (pad_h, pad_w) blank_info))
    ∧ (32 | Z.of_nat pad_h) ∧ (32 | Z.of_nat pad_w)
    ∧ 600 ≤ Z.of_nat pad_h < 600 + 32
    ∧ 500 ≤ Z.of_nat pad_w < 500 + 32.
Proof.
  refine (PadStride_pads_to_multiple 32 (Image 3 600 500) blank_info _).
  reflexivity.
Defined.

(** ** What the operators do to the metadata *)

Section Metadata.

Lemma Resize_call_info (self : Resize) (im : image) (info : im_info)
    (out : image) (info' : im_info) :
  Resize_call self im info = Ok (out, info') →
  ∃ sx, info' = set_resize_shape (shape_2 out)
                  (if in_scale_set (arch self) then set_scale sx info
                   else info).
Proof.
  unfold Resize_call. intros H. py_inv H. destruct a as [sx sy].
  do 2 py_inv H. injection H as <- <-. eauto.
Qed.

Lemma Normalize_call_same (self : Normalize) (im : image) (info : im_info)
    (out : image) (info' : im_info) :
  Normalize_call self im info = Ok (out, info') → out = im ∧ info' = info.
Proof.
  unfold Normalize_call. repeat destruct (broadcastable _ _); try discriminate.
  intros [= <- <-]. done.
Qed.

Lemma Permute_call_info (self : Permute) (im : image) (info : im_info)
    (out : image) (info' : im_info) :
  Permute_call self im info = Ok (out, info') → info' = info.
Proof.
  unfold Permute_call. destruct (to_bgr self); [destruct (_ <=? _)%nat|];
    try discriminate; intros [= _ <-]; done.
Qed.

Lemma PadStride_call_info (self : PadStride) (im : image) (info : im_info)
    (out : image) (info' : im_info) :
  PadStride_call self im info = Ok (RetPair out info') →
  info' = set_resize_shape (dim1 out, dim2 out) info.
Proof.
  unfold PadStride_call. destruct (_ =? 0); [discriminate|].
  destruct (_ || _); [discriminate|]. destruct (broadcastable _ _);
    [|discriminate].
  intros [= <- <-]. reflexivity.
Qed.

(** What one turn of the operator loop can do to [im_info]: rewrite
    [resize_shape], and (a Resize whose architecture is in the scale set only)
    rewrite [scale]. *)
Lemma operator_turn_info (op : operator) (im : image) (info : im_info)
    (r : op_return) (out : image) (info' : im_info) :
  operator_call op im info = Ok r → unpack_pair r = Ok (out, info') →
  origin_shape info' = origin_shape info
  ∧ (is_Some (resize_shape info) → is_Some (resize_shape info'))
  ∧ (scale info' = scale info
     ∨ ∃ self, op = OpResize self ∧ in_scale_set (arch self) = true).
Proof.
  intros Hcall Hunpack. destruct op as [rs|nm|pm|ps]; cbn in Hcall.
  - py_inv Hcall. destruct a as [im1 info1]. injection Hcall as <-.
    injection Hunpack as <- <-.
    apply Resize_call_info in Hstep as [sx ->].
    destruct (in_scale_set (arch rs)) eqn:E; cbn; eauto 6.
  - py_inv Hcall. destruct a as [im1 info1]. injection Hcall as <-.
    injection Hunpack as <- <-.
    apply Normalize_call_same in Hstep as [-> ->]. auto.
  - py_inv Hcall. destruct a as [im1 info1]. injection Hcall as <-.
    injection Hunpack as <- <-.
    apply Permute_call_info in Hstep as ->. auto.
  - destruct r as [im1 info1|im1]; cbn in Hunpack.
    + injection Hunpack as <- <-.
      apply PadStride_call_info in Hcall as ->. cbn. eauto.
    + destruct (dim0 im1 =? 2)%nat; discriminate.
Qed.

(** An operator that leaves [scale] alone: anything but a Resize whose
    architecture is in the scale set. *)
Lemma apply_ops_info (ops : list operator) (im : image) (info : im_info)
    (out : image) (info' : im_info) :
  apply_ops ops im info = Ok (out, info') →
  origin_shape info' = origin_shape info
  ∧ (is_Some (resize_shape info) → is_Some (resize_shape info'))
  ∧ (Forall (fun op => ∀ self, op = OpResize self →
                                in_scale_set (arch self) = false) ops →
     scale info' = scale info).
Proof.
  revert im info. induction ops as [|op ops IH]; intros im info H.
  - injection H as <- <-. auto.
  - cbn [apply_ops] in H. py_inv H. py_inv H. destruct a0 as [im1 info1].
    destruct (operator_turn_info _ _ _ _ _ _ Hstep Hstep0) as (Ho & Hr & Hs).
    destruct (IH _ _ H) as (IHo & IHr & IHs).
    split; [congruence|]. split; [auto|].
    intros Hall. apply Forall_cons in Hall as [Hop Hall].
    rewrite (IHs Hall). destruct Hs as [Hs | (self & -> & Hin)]; [done|].
    rewrite (Hop self eq_refl) in Hin. discriminate.
Qed.

Lemma create_inputs_Ok (im : image) (info : im_info) (model_arch : string)
    (inputs : gmap string feed) :
  create_inputs im info model_arch = Ok inputs →
  inputs !! "image" = Some (FeedImage im)
  ∧ is_Some (origin_shape info) ∧ is_Some (resize_shape info).
Proof.
  unfold create_inputs. intros H. do 2 py_inv H.
  destruct (origin_shape info); [|discriminate].
  destruct (resize_shape info); [|discriminate].
  split; [|eauto].
  repeat (destruct (py_in _ model_arch)); injection H as <-; reflexivity.
Qed.

End Metadata.

(** X4.  Whatever the recipe, when [Detector.preprocess] returns, its
    [im_info] still holds the height and width of the frame it was given as
    [origin_shape], some [resize_shape], and the fed dictionary has an
    [image] entry. *)
Theorem preprocess_keeps_origin (self : Detector) (image : image)
    (inputs : gmap string feed) (info : im_info) :
  preprocess self image = Ok (inputs, info) →
  origin_shape info = Some (dim0 image, dim1 image)
  ∧ is_Some (resize_shape info)
  ∧ ∃ out, inputs !! "image" = Some (FeedImage out).
Proof.
  unfold preprocess, decode_image. intros H.
  py_inv H. destruct a as [out info1]. py_inv H. injection H as <- <-.
  apply apply_ops_info in Hstep as (Ho & Hr & _).
  apply create_inputs_Ok in Hstep0 as (Himg & _ & Hrs).
  split; [rewrite Ho; reflexivity|]. split; [done|]. eauto.
Qed.

Lemma preprocess_keeps_origin_witness :
  ∃ inputs info,
    preprocess (yolo_detector false two_box_model) (Image 152 304 3)
      = Ok (inputs, info)
    ∧ origin_shape info = Some (152, 304)%nat.
Proof.
  eexists _, _. split; [vm_compute; reflexivity|].
  refine (proj1 (preprocess_keeps_origin (yolo_detector false two_box_model)
                   (Image 152 304 3) _ _ _)).
  vm_compute. reflexivity.
Defined.

(** X5.  The scale set is matched by equality, the feeds by substring.  For
    a detector whose architecture is not literally RCNN or RetinaNet no
    operator ever writes [scale]: [preprocess] returns [scale = 1], and an
    architecture whose name contains RetinaNet or RCNN (and not YOLO) is fed
    [im_info = [[h, w, 1]]] with the recorded [resize_shape]. *)
Theorem preprocess_scale_outside_scale_set
    (model : gmap string feed → list ndarray) (cfg : Config)
    (use_gpu : bool) (run_mode : string) (det : Detector) (image : image)
    (inputs : gmap string feed) (info : im_info) :
  Detector_init model cfg use_gpu run_mode = Ok det →
  cfg_arch cfg ∉ scale_set →
  preprocess det image = Ok (inputs, info) →
  scale info = 1%Q
  ∧ (py_in "YOLO" (cfg_arch cfg) = false →
     py_in "RetinaNet" (cfg_arch cfg) = true
     ∨ py_in "RCNN" (cfg_arch cfg) = true →
     ∃ rh rw : nat,
       resize_shape info = Some (rh, rw)
       ∧ inputs !! "im_info"
         = Some (FeedArray (Matrix float32 [[of_nat rh; of_nat rw; 1%Q]]))).
Proof.
  intros Hinit Harch Hpre.
  unfold Detector_init in Hinit. py_inv Hinit. injection Hinit as <-.
  unfold preprocess, decode_image in Hpre. cbn [preprocess_ops config] in Hpre.
  py_inv Hpre. destruct a0 as [out info1]. py_inv Hpre.
  injection Hpre as <- <-.
  apply apply_ops_info in Hstep0 as (_ & _ & Hscale).
  assert (Hs : scale info1 = 1%Q).
  { rewrite Hscale; [reflexivity|]. apply Forall_forall.
    intros op Hop self ->.
    apply list_elem_of_fmap in Hop as (oi & Hoi & _).
    destruct oi; try discriminate. injection Hoi as ->. cbn.
    apply bool_decide_eq_false_2, Harch. }
  split; [done|]. intros Hyolo Hfamily.
  unfold create_inputs in Hstep1. rewrite Hyolo in Hstep1.
  do 2 py_inv Hstep1.
  destruct (resize_shape info1) as [[rh rw]|]; [|discriminate].
  injection Hstep2 as <-. exists rh, rw. split; [reflexivity|].
  rewrite Hs in Hstep1.
  destruct (py_in "RetinaNet" (cfg_arch cfg)).
  - injection Hstep1 as <-. reflexivity.
  - destruct Hfamily as [|Hrcnn]; [discriminate|]. rewrite Hrcnn in Hstep1.
    injection Hstep1 as <-. reflexivity.
Qed.

Lemma preprocess_scale_outside_scale_set_witness :
  ∃ inputs info,
    preprocess (mask_rcnn_detector two_box_model) (Image 64 128 3)
      = Ok (inputs, info)
    ∧ scale info = 1%Q.
Proof.
  eexists _, _. split; [vm_compute; reflexivity|].
  refine (proj1 (preprocess_scale_outside_scale_set two_box_model
                   mask_rcnn_config false "fluid"
                   (mask_rcnn_detector two_box_model) (Image 64 128 3)
                   _ _ _ _ _)).
  - reflexivity.
  - apply (bool_decide_unpack _); vm_compute; exact I.
  - vm_compute. reflexivity.
Defined.

(** ** A stride of zero in the recipe *)

Section ZeroStride.

Lemma apply_ops_zero_stride (ops : list operator) (im : image)
    (info : im_info) (p : image * im_info) :
  OpPadStride {| coarsest_stride := 0 |} ∈ ops →
  apply_ops ops im info ≠ Ok p.
Proof.
  revert im info. induction ops as [|op ops IH]; intros im info Hin H.
  - by apply elem_of_nil in Hin.
  - cbn [apply_ops] in H. py_inv H. py_inv H. destruct a0 as [im1 info1].
    apply elem_of_cons in Hin as [<- | Hin].
    + cbn in Hstep. injection Hstep as <-. cbn in Hstep0.
      destruct (dim0 im =? 2)%nat; discriminate.
    + exact (IH _ _ Hin H).
Qed.

End ZeroStride.

(** X6.  A recipe with a PadStride entry whose stride is absent or zero
    makes every call of [preprocess] fail: the operator hands back a bare
    array where the loop unpacks a pair. *)
Theorem preprocess_zero_stride
    (model : gmap string feed → list ndarray) (cfg : Config)
    (use_gpu : bool) (run_mode : string) (det : Detector) (image : image) :
  Detector_init model cfg use_gpu run_mode = Ok det →
  PadStrideInfo None ∈ preprocess_infos cfg
  ∨ PadStrideInfo (Some 0) ∈ preprocess_infos cfg →
  ∀ r, preprocess det image ≠ Ok r.
Proof.
  intros Hinit Hin r H.
  unfold Detector_init in Hinit. py_inv Hinit. injection Hinit as <-.
  unfold preprocess, decode_image in H. cbn [preprocess_ops] in H.
  py_inv H. destruct a0 as [out info1].
  eapply apply_ops_zero_stride; [|exact Hstep0].
  destruct Hin as [Hin | Hin];
    apply (list_elem_of_fmap_2 (build_op (cfg_arch cfg))) in Hin; exact Hin.
Qed.

Lemma preprocess_zero_stride_witness :
  preprocess (fpn_detector two_box_model) (Image 152 304 3) = Raise ValueError
  ∧ ∀ r, preprocess (fpn_detector two_box_model) (Image 152 304 3) ≠ Ok r.
Proof.
  split; [vm_compute; reflexivity|].
  refine (preprocess_zero_stride two_box_model fpn_config false "fluid"
            (fpn_detector two_box_model) (Image 152 304 3) _ _).
  - reflexivity.
  - left. do 3 apply list_elem_of_further. apply list_elem_of_here.
Defined.

(** ** Normalize *)

(** X7.  [Normalize.__call__] returns its image and [im_info] exactly when
    [mean] and [std] each have one entry per channel or a single entry, the
    channel axis being the first one under [is_channel_first] and the last
    one otherwise; it raises ValueError in every other case. *)
Theorem Normalize_call_channels (self : Normalize) (im : image)
    (info : im_info) :
  let channels := if is_channel_first self then dim0 im else dim2 im in
  let fits (n : nat) := bool_decide (n = channels ∨ n = 1%nat) in
  Normalize_call self im info
  = if fits (length (mean self)) && fits (length (std self))
    then Ok (im, info) else Raise ValueError.
Proof.
  intros channels fits. unfold Normalize_call.
  assert (Hb : ∀ n,
    broadcastable (if is_channel_first self then [n; 1; 1]%nat
                   else [1; 1; n]%nat) (image_dims im) = fits n).
  { intros n. subst fits channels. unfold image_dims.
    destruct (is_channel_first self); cbn [broadcastable];
      rewrite ?Nat.eqb_refl, ?orb_true_r, ?andb_true_r, ?andb_true_l;
      destruct (Nat.eqb_spec n 1); destruct (Nat.eqb_spec n (dim0 im));
      destruct (Nat.eqb_spec n (dim2 im)); cbn [orb];
      symmetry; first [ apply bool_decide_eq_true_2; lia
                      | apply bool_decide_eq_false_2; lia ]. }
  rewrite !Hb. destruct (fits (length (mean self)));
    destruct (fits (length (std self))); reflexivity.
Qed.

(** ** create_inputs, continued *)

Section Assembly.

Lemma YOLO_outside_scale_set (model_arch : string) :
  py_in "YOLO" model_arch = true → in_scale_set model_arch = false.
Proof.
  intros H. apply bool_decide_eq_false_2. unfold scale_set.
  rewrite elem_of_union, !elem_of_singleton.
  intros [-> | ->]; vm_compute in H; discriminate.
Qed.

Lemma create_inputs_YOLO (im : image) (info : im_info) (model_arch : string)
    (oh ow rh rw : nat) :
  origin_shape info = Some (oh, ow) → resize_shape info = Some (rh, rw) →
  py_in "YOLO" model_arch = true →
  create_inputs im info model_arch
  = Ok (<["resize_shape" :=
            FeedArray (Matrix int32 [[of_nat rw; of_nat rh]])]>
          (<["origin_shape" :=
               FeedArray (Matrix int32 [[of_nat ow; of_nat oh]])]>
             (<["image" := FeedImage im]> ∅))).
Proof.
  intros Ho Hr Hy. unfold create_inputs. rewrite Ho, Hr, Hy. reflexivity.
Qed.

End Assembly.

(** X8.  For an architecture whose name contains YOLO, also when it contains
    RCNN or RetinaNet as well, [create_inputs] feeds [origin_shape] and
    [resize_shape] as one row each in (width, height) order beside the image,
    and neither [im_info] nor [im_shape]. *)
Theorem create_inputs_YOLO_swaps_axes (im : image) (info : im_info)
    (model_arch : string) (oh ow rh rw : nat) (inputs : gmap string feed) :
  origin_shape info = Some (oh, ow) → resize_shape info = Some (rh, rw) →
  py_in "YOLO" model_arch = true →
  create_inputs im info model_arch = Ok inputs →
  inputs !! "origin_shape"
    = Some (FeedArray (Matrix int32 [[of_nat ow; of_nat oh]]))
  ∧ inputs !! "resize_shape"
    = Some (FeedArray (Matrix int32 [[of_nat rw; of_nat rh]]))
  ∧ inputs !! "image" = Some (FeedImage im)
  ∧ inputs !! "im_info" = None ∧ inputs !! "im_shape" = None.
Proof.
  intros Ho Hr Hy H. rewrite (create_inputs_YOLO _ _ _ _ _ _ _ Ho Hr Hy) in H.
  injection H as <-. repeat split; reflexivity.
Qed.

Lemma create_inputs_YOLO_swaps_axes_witness :
  ∃ inputs,
    create_inputs (Image 3 300 300) ssd_info "YOLOv4_RCNN_hybrid" = Ok inputs
    ∧ inputs !! "origin_shape"
      = Some (FeedArray (Matrix int32 [[of_nat 640; of_nat 480]]))
    ∧ inputs !! "im_info" = None.
Proof.
  pose proof (create_inputs_YOLO (Image 3 300 300) ssd_info
                "YOLOv4_RCNN_hybrid" 480 640 300 300
                eq_refl eq_refl eq_refl) as H.
  eexists. split; [exact H|].
  destruct (create_inputs_YOLO_swaps_axes (Image 3 300 300) ssd_info
              "YOLOv4_RCNN_hybrid" 480 640 300 300 _
              eq_refl eq_refl eq_refl H) as (H1 & _ & _ & H4 & _).
  split; [exact H1 | exact H4].
Defined.

(** ** The YOLO recipe, end to end *)

(** X9.  The YOLO recipe end to end.  For a detector built from the recipe
    Resize (no cap, OpenCV), Normalize (three statistics, channel last),
    Permute (channel first), [preprocess] of a three-channel frame with
    positive sides returns a 3 x target x target image, the frame's and the
    target's sides in (width, height) order, and [scale = 1]. *)
Theorem preprocess_YOLO_recipe
    (model : gmap string feed → list ndarray) (cfg : Config)
    (use_gpu : bool) (run_mode : string) (det : Detector) (image : image)
    (target : Z) (shape : option (list Z)) (interp : option Z)
    (mu sigma : list Q)
    (cv2_opt scale_opt layout_opt bgr_opt chw_opt : option bool) :
  Detector_init model cfg use_gpu run_mode = Ok det →
  py_in "YOLO" (cfg_arch cfg) = true →
  preprocess_infos cfg
  = [ResizeInfo target 0 cv2_opt shape interp;
     NormalizeInfo mu sigma scale_opt layout_opt;
     PermuteInfo bgr_opt chw_opt] →
  default true cv2_opt = true →
  default false layout_opt = false →
  default true chw_opt = true →
  0 < target → length mu = 3%nat → length sigma = 3%nat →
  (0 < dim0 image)%nat → (0 < dim1 image)%nat → dim2 image = 3%nat →
  let side := Z.to_nat target in
  preprocess det image
  = Ok (<["resize_shape" :=
            FeedArray (Matrix int32 [[of_nat side; of_nat side]])]>
          (<["origin_shape" :=
               FeedArray (Matrix int32 [[of_nat (dim1 image);
                                         of_nat (dim0 image)]])]>
             (<["image" := FeedImage (Image 3 side side)]> ∅)),
        {| scale := 1; origin_shape := Some (dim0 image, dim1 image);
           resize_shape := Some (side, side) |}).
Proof.
  intros Hinit Hyolo Hinfos Hcv Hlast Hfirst Ht Hmean Hstd Hh Hw Hc side.
  unfold Detector_init in Hinit. py_inv Hinit. injection Hinit as <-.
  unfold preprocess, decode_image. cbn [preprocess_ops config].
  rewrite Hinfos. cbn [fmap list_fmap build_op apply_ops operator_call].
  rewrite Hcv, Hlast, Hfirst.
  rewrite Resize_call_direct by (done || reflexivity).
  cbn [Resize_init arch target_size]. rewrite (YOLO_outside_scale_set _ Hyolo).
  py_run. cbn [unpack_pair]. py_run.
  unfold Normalize_call. cbn [is_channel_first mean std].
  rewrite Hmean, Hstd, Hc. unfold image_dims. cbn [dim0 dim1 dim2 broadcastable].
  rewrite !Nat.eqb_refl, !orb_true_r. cbn [andb orb]. py_run.
  cbn [unpack_pair]. py_run.
  unfold Permute_call. cbn [channel_first to_bgr dim0 dim1 dim2].
  assert (Hinputs : ∀ info,
    origin_shape info = Some (dim0 image, dim1 image) →
    resize_shape info = Some (side, side) → scale info = 1%Q →
    (inputs ← create_inputs (Image 3 side side) info (cfg_arch cfg);
     Ok (inputs, info))
    = Ok (<["resize_shape" :=
              FeedArray (Matrix int32 [[of_nat side; of_nat side]])]>
            (<["origin_shape" :=
                 FeedArray (Matrix int32 [[of_nat (dim1 image);
                                           of_nat (dim0 image)]])]>
               (<["image" := FeedImage (Image 3 side side)]> ∅)),
          {| scale := 1; origin_shape := Some (dim0 image, dim1 image);
             resize_shape := Some (side, side) |})).
  { intros [s o r] Ho Hr Hs. cbn in Ho, Hr, Hs. subst.
    rewrite (create_inputs_YOLO _ _ _ (dim0 image) (dim1 image) side side)
      by done.
    reflexivity. }
  fold side.
  destruct (default false bgr_opt); cbn [Nat.leb]; py_run;
    cbn [unpack_pair apply_ops]; py_run; apply Hinputs; reflexivity.
Qed.

Lemma preprocess_YOLO_recipe_witness :
  preprocess (yolo_detector false two_box_model) (Image 152 304 3)
  = Ok (<["resize_shape" := FeedArray (Matrix int32 [[of_nat 608; of_nat 608]])]>
          (<["origin_shape" :=
               FeedArray (Matrix int32 [[of_nat 304; of_nat 152]])]>
             (<["image" := FeedImage (Image 3 608 608)]> ∅)),
        {| scale := 1; origin_shape := Some (152, 304)%nat;
           resize_shape := Some (608, 608)%nat |}).
Proof.
  refine (preprocess_YOLO_recipe two_box_model (yolo_config false yolo_preprocess)
            false "fluid" (yolo_detector false two_box_model) (Image 152 304 3)
            608 None (Some 2) _ _ None (Some true) (Some false) (Some false)
            (Some true) _ _ _ _ _ _ _ _ _ _ _ _).
  - reflexivity.
  - reflexivity.
  - reflexivity.
  - reflexivity.
  - reflexivity.
  - reflexivity.
  - reflexivity.
  - reflexivity.
  - reflexivity.
  - simpl; lia.
  - simpl; lia.
  - reflexivity.
Defined.

(** ** postprocess, continued *)

Section Unfiltered.

Lemma Qltb_false (a b : Q) : Qltb a b = false ↔ ¬ (a < b)%Q.
Proof.
  rewrite <- Qltb_lt. destruct (Qltb a b); split; congruence.
Qed.

Lemma mask_select_all {A : Type} (keep : Q → bool) (ss : list Q)
    (xs : list A) :
  Forall (fun s => keep s = true) ss → length xs = length ss →
  mask_select (keep <$> ss) xs = xs.
Proof.
  intros Hall. revert xs.
  induction Hall as [|s ss Hs Hall IH]; intros [|x xs]; try discriminate;
    [done|].
  intros [= Hlen]. cbn. rewrite Hs, (IH _ Hlen). reflexivity.
Qed.

Lemma bool_index_mismatch {A : Type} (mask : list bool) (xs : list A) :
  length mask ≠ length xs → bool_index mask xs = Raise IndexError.
Proof.
  intros H. unfold bool_index.
  destruct (Nat.eqb_spec (length mask) (length xs)); done.
Qed.

Lemma mask_select_passes (keep : Q → bool) (ss : list Q) :
  Forall (fun s => keep s = true) (mask_select (keep <$> ss) ss).
Proof.
  induction ss as [|s ss IH]; [constructor|].
  cbn. destruct (keep s) eqn:E; [constructor|]; done.
Qed.

End Unfiltered.

(** X10.  With a threshold that is not positive (the default of [predict] is
    -1) [postprocess] returns the three arrays as it received them, provided
    the print loop can format every box: each box has four entries and there
    are at least as many scores and classes as boxes. *)
Theorem postprocess_nonpositive_threshold (bx : matrix) (sc cl : vector)
    (info : im_info) (threshold : Q) :
  (threshold <= 0)%Q →
  Forall (fun box => (4 ≤ length box)%nat) (mrows bx) →
  (length (mrows bx) ≤ length (vdata sc))%nat →
  (length (mrows bx) ≤ length (vdata cl))%nat →
  postprocess bx sc cl info threshold
  = Ok (<["classes" := Vec cl]>
          (<["scores" := Vec sc]> (<["boxes" := Mat bx]> ∅))).
Proof.
  intros Ht Hwide Hs Hc. unfold postprocess.
  rewrite (proj2 (Qltb_false 0 threshold)) by (apply Qle_not_lt, Ht).
  py_run. rewrite print_boxes_Ok by (done || lia). reflexivity.
Qed.

Lemma postprocess_nonpositive_threshold_witness :
  postprocess two_boxes two_scores two_classes blank_info (-1)
  = Ok (<["classes" := Vec two_classes]>
          (<["scores" := Vec two_scores]> (<["boxes" := Mat two_boxes]> ∅))).
Proof.
  apply (postprocess_nonpositive_threshold two_boxes two_scores two_classes
           blank_info (-1)).
  - discriminate.
  - repeat constructor.
  - reflexivity.
  - reflexivity.
Defined.

(** X11.  With a positive threshold [postprocess] raises IndexError when
    [boxes] or [classes] differs in length from [scores]: the boolean mask
    has the length of [scores]. *)
Theorem postprocess_length_mismatch (bx : matrix) (sc cl : vector)
    (info : im_info) (threshold : Q) :
  (0 < threshold)%Q →
  length (mrows bx) ≠ length (vdata sc)
  ∨ length (vdata cl) ≠ length (vdata sc) →
  postprocess bx sc cl info threshold = Raise IndexError.
Proof.
  intros Ht Hlen. unfold postprocess. rewrite (proj2 (Qltb_lt 0 threshold) Ht).
  set (mask := (fun s => np_greater (vdtype sc) s threshold) <$> vdata sc).
  assert (Hmask : length mask = length (vdata sc))
    by (subst mask; apply length_fmap).
  destruct (decide (length (mrows bx) = length (vdata sc))) as [Hrows | Hrows].
  - rewrite (bool_index_same_length mask (mrows bx)) by congruence. py_run.
    rewrite (bool_index_mismatch mask (vdata cl)); [reflexivity|].
    destruct Hlen; congruence.
  - rewrite (bool_index_mismatch mask (mrows bx)) by congruence. reflexivity.
Qed.

Lemma postprocess_length_mismatch_witness :
  postprocess other_boxes two_scores two_classes blank_info (1 # 2)
  = Raise IndexError.
Proof.
  apply (postprocess_length_mismatch other_boxes two_scores two_classes
           blank_info (1 # 2)).
  - reflexivity.
  - left. discriminate.
Defined.

Section Idempotence.

Lemma postprocess_filtered (bx : matrix) (sc cl : vector) (info : im_info)
    (threshold : Q) (r : gmap string ndarray) :
  (0 < threshold)%Q →
  postprocess bx sc cl info threshold = Ok r →
  let mask := (fun s => np_greater (vdtype sc) s threshold) <$> vdata sc in
  let bx' := Matrix (mdtype bx) (mask_select mask (mrows bx)) in
  let sc' := Vector (vdtype sc) (mask_select mask (vdata sc)) in
  let cl' := Vector (vdtype cl) (mask_select mask (vdata cl)) in
  length mask = length (mrows bx) ∧ length mask = length (vdata cl)
  ∧ print_boxes 0 (mrows bx') (vdata sc') (vdata cl') = Ok ()
  ∧ r = <["classes" := Vec cl']>
          (<["scores" := Vec sc']> (<["boxes" := Mat bx']> ∅)).
Proof.
  intros Ht H mask bx' sc' cl'. unfold postprocess in H.
  rewrite (proj2 (Qltb_lt 0 threshold) Ht) in H.
  py_inv H. destruct a as [[b s] c]. py_inv H. destruct a.
  injection H as <-.
  py_inv Hstep. py_inv Hstep. injection Hstep as <- <- <-.
  apply bool_index_Ok in Hstep1 as [Hl1 ->].
  apply bool_index_Ok in Hstep2 as [Hl2 ->].
  done.
Qed.

Lemma detections_inj (b b' : matrix) (s s' c c' : vector) :
  <["classes" := Vec c]> (<["scores" := Vec s]> (<["boxes" := Mat b]> ∅))
  = (<["classes" := Vec c']>
       (<["scores" := Vec s']> (<["boxes" := Mat b']> ∅)) : gmap string ndarray) →
  b = b' ∧ s = s' ∧ c = c'.
Proof.
  intros H.
  pose proof (f_equal (fun m : gmap string ndarray => m !! "boxes") H) as Hb.
  pose proof (f_equal (fun m : gmap string ndarray => m !! "scores") H) as Hs.
  pose proof (f_equal (fun m : gmap string ndarray => m !! "classes") H) as Hc.
  vm_compute in Hb, Hs, Hc. repeat split; congruence.
Qed.

(** A stricter filter applied to the rows a laxer one kept selects what it
    selects from all rows. *)
Lemma mask_select_refine {A : Type} (lax strict : Q → bool) (ss : list Q)
    (xs : list A) :
  (∀ s, strict s = true → lax s = true) → length xs = length ss →
  mask_select (strict <$> mask_select (lax <$> ss) ss)
              (mask_select (lax <$> ss) xs)
  = mask_select (strict <$> ss) xs.
Proof.
  intros Hsub. revert xs.
  induction ss as [|s ss IH]; intros [|x xs]; try discriminate; [done|].
  intros [= Hlen]. cbn. destruct (lax s) eqn:El; cbn.
  - rewrite (IH _ Hlen). reflexivity.
  - destruct (strict s) eqn:Es; [|exact (IH _ Hlen)].
    rewrite (Hsub _ Es) in El. discriminate.
Qed.

End Idempotence.

(** X12.  Filtering composes.  Running [postprocess] with a threshold [hi]
    on the arrays that [postprocess] returned for a positive threshold
    [lo <= hi] gives what [postprocess] gives on the raw arrays with [hi];
    with [hi = lo] a returned result is unchanged by a second pass. *)
Theorem postprocess_refilter (bx : matrix) (sc cl : vector)
    (info : im_info) (lo hi : Q) (bx' : matrix) (sc' cl' : vector) :
  (0 < lo)%Q → (lo <= hi)%Q →
  postprocess bx sc cl info lo
  = Ok (<["classes" := Vec cl']>
          (<["scores" := Vec sc']> (<["boxes" := Mat bx']> ∅))) →
  postprocess bx' sc' cl' info hi = postprocess bx sc cl info hi.
Proof.
  intros Hlo Hle H.
  assert (Hhi : (0 < hi)%Q) by (eapply Qlt_le_trans; eassumption).
  destruct (postprocess_filtered _ _ _ _ _ _ Hlo H) as (Hl1 & Hl2 & _ & Hr).
  cbv zeta in Hr. clear H.
  apply detections_inj in Hr as (-> & -> & ->).
  rewrite length_fmap in Hl1, Hl2.
  assert (Hsub : ∀ s, np_greater (vdtype sc) s hi = true
                      → np_greater (vdtype sc) s lo = true)
    by (intros s; apply np_greater_weaken; done).
  set (lax := fun s => np_greater (vdtype sc) s lo) in *.
  set (strict := fun s => np_greater (vdtype sc) s hi) in *.
  unfold postprocess. rewrite (proj2 (Qltb_lt 0 hi) Hhi).
  cbn [mrows vdata mdtype vdtype]. fold strict.
  rewrite !bool_index_same_length
    by (rewrite !length_fmap, ?length_mask_select;
        rewrite ?length_fmap; done).
  py_run. cbn [mrows vdata mdtype vdtype].
  rewrite !(mask_select_refine lax strict) by done.
  reflexivity.
Qed.

Lemma postprocess_refilter_witness :
  postprocess (Matrix float32 [[10; 20; 30; 40]]%Q)
              (Vector float32 [3 # 4]%Q) (Vector int32 [0%Q]) blank_info
              (5 # 8)
  = postprocess two_boxes two_scores two_classes blank_info (5 # 8).
Proof.
  apply (postprocess_refilter two_boxes two_scores two_classes blank_info
           (1 # 2) (5 # 8)).
  - reflexivity.
  - discriminate.
  - vm_compute. reflexivity.
Defined.

(** ** predict, continued *)

Section PredictorPath.
Context (self : Detector) (image : image) (threshold : Q).
Context (inputs : gmap string feed) (info : im_info).
Context (Hpre : preprocess self image = Ok (inputs, info)).

(** With at least one timed run and three outputs, the predictor path comes
    down to the end of [predict] on the sorted outputs. *)
Lemma predict_predictor_path (warmup repeats : Z) (o0 o1 o2 : ndarray)
    (rest : list ndarray) :
  use_python_inference (config self) = false →
  0 < repeats →
  engine self inputs = o0 :: o1 :: o2 :: rest →
  predict self image threshold warmup repeats
  = finish_predict (disambiguate [o0; o1; o2] unassigned) info threshold.
Proof.
  intros Hpy Hrep Hout. unfold predict. rewrite Hpre, Hpy. py_run.
  unfold run_predictor. rewrite Hout. cbn [fetch3].
  destruct (Z.ltb_spec 0 warmup); destruct (Z.ltb_spec 0 repeats); try lia;
    destruct (Z.eqb_spec repeats 0); try lia; py_run; reflexivity.
Qed.

Lemma fetch3_Ok (outs : list ndarray) :
  (3 ≤ length outs)%nat → ∃ three, fetch3 outs = Ok three.
Proof.
  destruct outs as [|o0 [|o1 [|o2 rest]]]; cbn; try lia. eauto.
Qed.

Lemma predict_no_timed_run (warmup : Z) :
  (use_python_inference (config self) = false → 0 < warmup →
   (3 ≤ length (engine self inputs))%nat) →
  predict self image threshold warmup 0 = Raise ZeroDivisionError.
Proof.
  intros Hout. unfold predict. rewrite Hpre. py_run.
  destruct (use_python_inference (config self)).
  - reflexivity.
  - unfold run_predictor. destruct (Z.ltb_spec 0 warmup) as [Hw|Hw].
    + destruct (fetch3_Ok _ (Hout eq_refl Hw)) as [three ->]. reflexivity.
    + reflexivity.
Qed.

End PredictorPath.

Section RunCounts.



End RunCounts.



(** X14.  With [repeats = 0], once preprocessing succeeds, [predict] raises
    ZeroDivisionError on either path: the timing report divides by
    [repeats].  On the predictor path the warm-up runs, if any, must have
    found their three outputs. *)
Theorem predict_zero_repeats (self : Detector) (image : image) (threshold : Q)
    (warmup : Z) (inputs : gmap string feed) (info : im_info) :
  preprocess self image = Ok (inputs, info) →
  (use_python_inference (config self) = false → 0 < warmup →
   (3 ≤ length (engine self inputs))%nat) →
  predict self image threshold warmup 0 = Raise ZeroDivisionError.
Proof.
  intros Hpre Hout.
  exact (predict_no_timed_run self image threshold inputs info Hpre warmup Hout).
Qed.

Lemma predict_zero_repeats_witness :
  predict (yolo_detector false two_box_model) frame_304 (1 # 2) 10 0
  = Raise ZeroDivisionError.
Proof.
  eapply (predict_zero_repeats (yolo_detector false two_box_model) frame_304
            (1 # 2) 10).
  - vm_compute. reflexivity.
  - intros _ _. cbn. lia.
Defined.



(** X16.  On the predictor path, when the vector bound to [scores] is
    empty, [predict] raises IndexError: an empty score vector is not taken
    for the absence of objects. *)
Theorem predict_empty_scores (self : Detector) (image : image)
    (threshold : Q) (warmup repeats : Z) (inputs : gmap string feed)
    (info : im_info) (o0 o1 o2 : ndarray) (rest : list ndarray)
    (sc : vector) :
  use_python_inference (config self) = false →
  preprocess self image = Ok (inputs, info) →
  0 < repeats →
  engine self inputs = o0 :: o1 :: o2 :: rest →
  last (omap as_scores [o0; o1; o2]) = Some sc →
  vdata sc = [] →
  predict self image threshold warmup repeats = Raise IndexError.
Proof.
  intros Hpy Hpre Hrep Hout Hlast Hempty.
  rewrite (predict_predictor_path self image threshold inputs info Hpre
             warmup repeats o0 o1 o2 rest Hpy Hrep Hout).
  destruct (disambiguate_views [o0; o1; o2]) as (_ & Hs & _).
  cbv zeta in Hs. rewrite Hlast in Hs.
  unfold finish_predict. rewrite Hs. cbn [read_local]. py_run.
  rewrite Hempty. reflexivity.
Qed.

Lemma predict_empty_scores_witness :
  predict (yolo_detector false empty_model) frame_304 (1 # 2) 10 10
  = Raise IndexError.
Proof.
  eapply (predict_empty_scores (yolo_detector false empty_model)
            frame_304 (1 # 2) 10 10).
  - reflexivity.
  - vm_compute. reflexivity.
  - reflexivity.
  - reflexivity.
  - reflexivity.
  - reflexivity.
Defined.



(** X18.  On the predictor path, when the three outputs are, in any order,
    one rank-2 tensor, one float32 vector and one vector of another dtype,
    [predict] is the no-object test on the float32 vector followed by
    [postprocess] of these three as boxes, scores and classes. *)
Theorem predict_output_order (self : Detector) (image : image)
    (threshold : Q) (warmup repeats : Z) (inputs : gmap string feed)
    (info : im_info) (o0 o1 o2 : ndarray) (rest : list ndarray)
    (m : matrix) (s c : vector) :
  use_python_inference (config self) = false →
  preprocess self image = Ok (inputs, info) →
  0 < repeats →
  engine self inputs = o0 :: o1 :: o2 :: rest →
  [o0; o1; o2] ≡ₚ [Mat m; Vec s; Vec c] →
  vdtype s = float32 → vdtype c ≠ float32 →
  predict self image threshold warmup repeats
  = (first ← getitem (vdata s) 0;
     if Qltb first 0 then Ok no_object_result
     else postprocess m s c info threshold).
Proof.
  intros Hpy Hpre Hrep Hout Hperm Hs Hc.
  rewrite (predict_predictor_path self image threshold inputs info Hpre
             warmup repeats o0 o1 o2 rest Hpy Hrep Hout).
  rewrite (disambiguate_signature _ m s c Hperm Hs Hc).
  unfold finish_predict. cbn [scores boxes classes read_local]. py_run.
  destruct (getitem (vdata s) 0) as [first|e]; py_run; [|reflexivity].
  destruct (Qltb first 0); py_run; reflexivity.
Qed.

Lemma predict_output_order_witness :
  predict (yolo_detector false two_box_model) frame_304 (1 # 2) 10 10
  = postprocess two_boxes two_scores two_classes
      {| scale := 1; origin_shape := Some (304, 304)%nat;
         resize_shape := Some (608, 608)%nat |} (1 # 2).
Proof.
  refine (predict_output_order (yolo_detector false two_box_model) frame_304
            (1 # 2) 10 10 _ _ (Vec two_scores) (Mat two_boxes)
            (Vec two_classes) [] two_boxes two_scores two_classes
            _ _ _ _ _ _ _).
  - reflexivity.
  - vm_compute. reflexivity.
  - reflexivity.
  - reflexivity.
  - apply Permutation_swap.
  - reflexivity.
  - discriminate.
Defined.

(** ** Config *)

Section Substring.

Lemma prefix_append (needle hay : string) :
  String.prefix needle hay = true ↔ ∃ post, hay = (needle +:+ post)%string.
Proof.
  revert hay. induction needle as [|a needle IH]; intros [|b hay]; cbn.
  - split; [intros _; exists ""%string; reflexivity | done].
  - split; [intros _; exists (String b hay); reflexivity | done].
  - split; [discriminate | intros [post H]; discriminate].
  - destruct (Ascii.ascii_dec a b) as [-> | Hab].
    + rewrite IH. split.
      * intros [post ->]. exists post. reflexivity.
      * intros [post [= ->]]. exists post. reflexivity.
    + split; [discriminate | intros [post [= H _]]; done].
Qed.

Lemma py_in_substring (needle hay : string) :
  py_in needle hay = true
  ↔ ∃ pre post, hay = (pre +:+ needle +:+ post)%string.
Proof.
  induction hay as [|b hay IH]; cbn [py_in];
    rewrite orb_true_iff, prefix_append.
  - split.
    + intros [[post H] | H]; [|discriminate]. exists ""%string, post. exact H.
    + intros ([|a pre] & post & H); [|discriminate]. left. eauto.
  - rewrite IH. split.
    + intros [[post H] | (pre & post & ->)].
      * exists ""%string, post. exact H.
      * exists (String b pre), post. reflexivity.
    + intros ([|a pre] & post & H).
      * left. eauto.
      * right. injection H as _ ->. eauto.
Qed.

End Substring.

(** X19.  [Config.check_model] returns [True] exactly when the architecture
    name contains one of YOLO, SSD, RetinaNet, RCNN, Face as a contiguous,
    case-sensitive substring, and raises ValueError exactly when it contains
    none. *)
Theorem check_model_substring (yml_arch : string) :
  let supported :=
    ∃ family pre post, family ∈ support_models
                       ∧ yml_arch = (pre +:+ family +:+ post)%string in
  (check_model yml_arch = Ok true ↔ supported)
  ∧ (check_model yml_arch = Raise ValueError ↔ ¬ supported).
Proof.
  intros supported. unfold check_model.
  assert (H : existsb (fun m => py_in m yml_arch) support_models = true
              ↔ supported).
  { rewrite existsb_exists. subst supported. split.
    - intros (m & Hin & Hm). apply py_in_substring in Hm as (pre & post & ->).
      exists m, pre, post. split; [|reflexivity].
      apply list_elem_of_In, Hin.
    - intros (m & pre & post & Hin & ->). exists m. split.
      + apply list_elem_of_In, Hin.
      + apply py_in_substring. eauto. }
  destruct (existsb _ support_models).
  - split; [tauto|]. split; [discriminate|]. intros Hn. exfalso. tauto.
  - split.
    + split; [discriminate|]. intros Hs. apply H in Hs. discriminate.
    + split; [|reflexivity]. intros _ Hs. apply H in Hs. discriminate.
Qed.

(** ** Detector construction, continued *)

(** X20.  [Detector.__init__] passes its validations exactly when the config
    asks for Python inference (the run mode is then never looked at), or the
    run mode is fluid, or a GPU is used with a run mode other than trt_int8;
    otherwise it raises ValueError.  The recipe plays no part. *)
Theorem Detector_init_run_modes (model : gmap string feed → list ndarray)
    (cfg : Config) (use_gpu : bool) (run_mode : string) :
  let accepted :=
    use_python_inference cfg = true
    ∨ run_mode = "fluid"%string
    ∨ (use_gpu = true ∧ run_mode ≠ "trt_int8"%string) in
  ((∃ det, Detector_init model cfg use_gpu run_mode = Ok det) ↔ accepted)
  ∧ (Detector_init model cfg use_gpu run_mode = Raise ValueError
     ↔ ¬ accepted).
Proof.
  intros accepted. subst accepted. unfold Detector_init, load_predictor.
  destruct (use_python_inference cfg); py_run.
  { split; [split; eauto|]. split; [discriminate | intros H; exfalso; auto]. }
  destruct (String.eqb_spec run_mode "fluid") as [-> | Hfluid].
  { rewrite andb_false_r. cbn. py_run.
    split; [split; eauto|]. split; [discriminate | intros H; exfalso; auto]. }
  destruct use_gpu; cbn [negb andb].
  - destruct (String.eqb_spec run_mode "trt_int8") as [-> | Hint8]; py_run.
    + split; [split|split; [|reflexivity]].
      * intros [det H]. discriminate.
      * intros [H | [H | [_ H]]]; done.
      * intros _ [H | [H | [_ H]]]; done.
    + split; [split; eauto|]. split; [discriminate|].
      intros H. exfalso. apply H. auto.
  - py_run. split; [split|split; [|reflexivity]].
    + intros [det H]. discriminate.
    + intros [H | [H | [H _]]]; done.
    + intros _ [H | [H | [H _]]]; done.
Qed.
